(** * Pet-Care-Advisor: the diagnostic pipeline, embedded and verified

  The development follows the three modules of the application:
  - [app/models/knowledge_base.py]  (catalogs, loading, candidate
    retrieval, confidence),
  - [app/models/pet.py]             (pets and diagnosis sessions),
  - [app/utils/rule_processor.py]   (emergency table, risk multipliers,
    exclusion rules),
  - [app/utils/inference_engine.py] (the [diagnose] pipeline and the
    explanation).

  Conventions of the embedding.
  - Python [str] is [string]; the text operations used by the code
    ([in], [lower], [replace], [title]) are written out on ASCII text.
  - Python [float] is an exact rational ([Q]) in the first part, whose
    statements do not depend on rounding; comparisons are the decidable
    ones of [QArith].  Module [Binary64] gives the numeric path of the
    pipeline on IEEE 754 doubles, with rounding, infinities and NaN; the
    statements on thresholds, the ranking and the age of the pet are
    made there.
  - A Python [dict] is an insertion-ordered association list ([odict]):
    [values()] and [items()] enumerate in insertion order, which is what
    the ranking depends on.
  - Loops that append to a fresh local list are folds building that list;
    code that writes into a dictionary object is also given an
    object-level model with an explicit store (module [Objects]). *)

From stdpp Require Import base list strings gmap pretty.
From Stdlib Require Import Ascii QArith Qminmax Sorting.Sorted Permutation.

Local Open Scope string_scope.
Local Open Scope list_scope.
Local Open Scope Q_scope.

(* ================================================================== *)
(** * Python text operations *)
(* ================================================================== *)

Module PyStr.

(** [x in xs] for a list of strings. *)
Definition str_in (x : string) (xs : list string) : bool :=
  existsb (String.eqb x) xs.

(** [needle in hay] for two strings: substring search. *)
Fixpoint contains (needle hay : string) : bool :=
  if String.prefix needle hay then true
  else match hay with
       | EmptyString => false
       | String _ rest => contains needle rest
       end.

Definition is_upper (c : ascii) : bool :=
  let n := Ascii.nat_of_ascii c in (65 <=? n)%nat && (n <=? 90)%nat.

Definition is_lower (c : ascii) : bool :=
  let n := Ascii.nat_of_ascii c in (97 <=? n)%nat && (n <=? 122)%nat.

Definition is_cased (c : ascii) : bool := is_upper c || is_lower c.

Definition lower_char (c : ascii) : ascii :=
  if is_upper c then Ascii.ascii_of_nat (Ascii.nat_of_ascii c + 32) else c.

Definition upper_char (c : ascii) : ascii :=
  if is_lower c then Ascii.ascii_of_nat (Ascii.nat_of_ascii c - 32) else c.

(** [s.lower()] *)
Fixpoint lower (s : string) : string :=
  match s with
  | EmptyString => EmptyString
  | String c rest => String (lower_char c) (lower rest)
  end.

(** [s.replace(old, new)] for one-character [old] and [new]. *)
Fixpoint replace_char (old new : ascii) (s : string) : string :=
  match s with
  | EmptyString => EmptyString
  | String c rest =>
      String (if Ascii.eqb c old then new else c) (replace_char old new rest)
  end.

(** [s.title()]: a cased character is upper-cased when the character
    before it is not cased, and lower-cased otherwise. *)
Fixpoint title_from (previous_is_cased : bool) (s : string) : string :=
  match s with
  | EmptyString => EmptyString
  | String c rest =>
      String (if previous_is_cased then lower_char c else upper_char c)
             (title_from (is_cased c) rest)
  end.

Definition title (s : string) : string := title_from false s.

End PyStr.

(* ================================================================== *)
(** * Python floats as rationals *)
(* ================================================================== *)

Module PyNum.

(** [a < b] *)
Definition Qltb (a b : Q) : bool := negb (Qle_bool b a).

(** [min(a, b)]: the first argument unless the second is smaller. *)
Definition py_min (a b : Q) : Q := if Qltb b a then b else a.

(** [n / d] for two Python integers that are lengths or counts.  The code
    divides only behind a test that the divisor is not zero. *)
Definition true_div (n d : nat) : Q :=
  Z.of_nat n # Pos.of_nat d.

End PyNum.

(* ================================================================== *)
(** * Insertion-ordered dictionaries *)
(* ================================================================== *)

Module ODict.

Definition odict (V : Type) : Type := list (string * V).

Definition empty {V} : odict V := [].

(** [d.get(k)] / [k in d] *)
Fixpoint get {V} (k : string) (d : odict V) : option V :=
  match d with
  | [] => None
  | (k', v) :: rest => if String.eqb k k' then Some v else get k rest
  end.

Definition mem {V} (k : string) (d : odict V) : bool :=
  match get k d with Some _ => true | None => false end.

(** [d[k] = v]: an existing key keeps its position, a new key goes last. *)
Fixpoint set {V} (k : string) (v : V) (d : odict V) : odict V :=
  match d with
  | [] => [(k, v)]
  | (k', v') :: rest =>
      if String.eqb k k' then (k', v) :: rest else (k', v') :: set k v rest
  end.

Definition keys {V} (d : odict V) : list string := map fst d.
Definition values {V} (d : odict V) : list V := map snd d.
Definition items {V} (d : odict V) : list (string * V) := d.

(** The invariant of every dictionary object: keys are pairwise distinct. *)
Definition wf {V} (d : odict V) : Prop := NoDup (keys d).

End ODict.

Import PyStr PyNum.
Import ODict(odict).

(* ================================================================== *)
(** * app/models/knowledge_base.py: the data model *)
(* ================================================================== *)

Record Symptom := {
  symptom_id : string;
  symptom_name : string;
  symptom_category : string;
  severity_levels : list string;
  symptom_description : string;
  common_pets : list string
}.

Record Condition := {
  id : string;
  name : string;
  category : string;
  severity : string;
  required_symptoms : list string;
  optional_symptoms : list string;
  exclusion_symptoms : list string;
  confidence_threshold : Q;
  description : string;
  emergency_level : string
}.

Record Treatment := {
  treatment_id : string;
  condition_id : string;
  treatment_type : string;
  treatment_description : string;
  instructions : list string;
  duration : string;
  precautions : list string;
  when_to_seek_help : list string
}.

(** One entry of [rules.json] under ["species"] or ["age_categories"]; only
    the key ["risk_factors"] is read by the code. *)
Record RuleSet := {
  risk_factors : option (odict Q)
}.

(** The document [rules.json]: both top-level keys are optional. *)
Record PetRules := {
  rules_species : option (odict RuleSet);
  rules_age_categories : option (odict RuleSet)
}.

Record KnowledgeBase := {
  symptoms : odict Symptom;
  conditions : odict Condition;
  treatments : odict Treatment;
  pet_specific_rules : PetRules
}.

(** [KnowledgeBase.get_conditions_for_symptoms] *)
Definition required_match (condition : Condition) (symptom_ids : list string) : bool :=
  forallb (fun req_symptom => str_in req_symptom symptom_ids)
          (required_symptoms condition).

Definition exclusion_conflict (condition : Condition) (symptom_ids : list string) : bool :=
  existsb (fun excl_symptom => str_in excl_symptom symptom_ids)
          (exclusion_symptoms condition).

Definition get_conditions_for_symptoms
    (kb : KnowledgeBase) (symptom_ids : list string) : list Condition :=
  fold_left
    (fun matching_conditions condition =>
       if required_match condition symptom_ids
          && negb (exclusion_conflict condition symptom_ids)
       then matching_conditions ++ [condition]
       else matching_conditions)
    (ODict.values (conditions kb)) [].

(** [KnowledgeBase.calculate_confidence] *)
Definition calculate_confidence
    (condition : Condition) (present_symptoms : list string) : Q :=
  let total_possible :=
    (length (required_symptoms condition) + length (optional_symptoms condition))%nat in
  if (total_possible =? 0)%nat then 0
  else
    let required_score :=
      list_sum (map (fun _ => 2%nat)
        (List.filter (fun symptom => str_in symptom present_symptoms)
                     (required_symptoms condition))) in
    let optional_score :=
      list_sum (map (fun _ => 1%nat)
        (List.filter (fun symptom => str_in symptom present_symptoms)
                     (optional_symptoms condition))) in
    let max_possible_score :=
      (length (required_symptoms condition) * 2
       + length (optional_symptoms condition))%nat in
    let confidence := true_div (required_score + optional_score) max_possible_score in
    py_min confidence 1.

(* ================================================================== *)
(** * app/models/pet.py *)
(* ================================================================== *)

Record Pet := {
  pet_name : string;
  species : string;
  breed : option string;
  age : Q;
  weight : option Q;
  gender : string;
  medical_history : list string;
  current_medications : list string;
  allergies : list string;
  last_vet_visit : option string
}.

(** [Pet.get_age_category] *)
Definition get_age_category (self : Pet) : string :=
  if String.eqb (lower (species self)) "dog" then
    if Qltb (age self) (1 # 2) then "puppy"
    else if Qltb (age self) 7 then "adult"
    else "senior"
  else if String.eqb (lower (species self)) "cat" then
    if Qltb (age self) (1 # 2) then "kitten"
    else if Qltb (age self) 10 then "adult"
    else "senior"
  else "unknown".

(** [Pet.is_senior] *)
Definition is_senior (self : Pet) : bool :=
  String.eqb (get_age_category self) "senior".

(** A [datetime] is represented by its ISO-8601 text, so that [isoformat]
    is the identity on the representation. *)
Definition datetime : Type := string.
Definition isoformat (t : datetime) : string := t.

Record DiagnosisSession := {
  pet : Pet;
  reported_symptoms : list string;
  symptom_details : odict string;
  timestamp : datetime;
  session_id : string
}.

(* ================================================================== *)
(** * app/utils/rule_processor.py *)
(* ================================================================== *)

(** The dictionary returned by [apply_pet_specific_rules]. *)
Record Assessment := {
  risk_multipliers : odict Q;
  additional_symptoms : list string;
  exclusions : list string;
  urgency_modifiers : odict string
}.

Definition no_rules : RuleSet := {| risk_factors := None |}.

(** [rules.get(section, {}).get(key, {})] *)
Definition rules_lookup (section : option (odict RuleSet)) (key : string) : RuleSet :=
  default no_rules (ODict.get key (default ODict.empty section)).

(** First loop of [apply_pet_specific_rules]: plain assignment. *)
Definition species_step (multipliers : odict Q) (item : string * Q) : odict Q :=
  let '(condition_id, multiplier) := item in
  ODict.set condition_id multiplier multipliers.

(** Second loop: [*=] on a key already present, assignment otherwise. *)
Definition age_step (multipliers : odict Q) (item : string * Q) : odict Q :=
  let '(condition_id, multiplier) := item in
  match ODict.get condition_id multipliers with
  | Some current => ODict.set condition_id (current * multiplier) multipliers
  | None => ODict.set condition_id multiplier multipliers
  end.

(** [RuleProcessor.apply_pet_specific_rules] *)
Definition apply_pet_specific_rules
    (kb : KnowledgeBase) (pet : Pet) (symptoms : list string) : Assessment :=
  let rules := pet_specific_rules kb in
  let species_rules := rules_lookup (rules_species rules) (lower (species pet)) in
  let age_rules := rules_lookup (rules_age_categories rules) (get_age_category pet) in
  let multipliers := ODict.empty in
  let multipliers :=
    match risk_factors species_rules with
    | Some factors => fold_left species_step (ODict.items factors) multipliers
    | None => multipliers
    end in
  let multipliers :=
    match risk_factors age_rules with
    | Some factors => fold_left age_step (ODict.items factors) multipliers
    | None => multipliers
    end in
  {| risk_multipliers := multipliers;
     additional_symptoms := [];
     exclusions := [];
     urgency_modifiers := ODict.empty |}.

(** The fixed table of [check_emergency_conditions]. *)
Definition emergency_symptoms : odict string :=
  [ ("difficulty_breathing", "critical");
    ("severe_bleeding", "critical");
    ("unconscious", "critical");
    ("seizures", "critical");
    ("severe_trauma", "critical");
    ("bloated_abdomen", "high");
    ("persistent_vomiting", "high");
    ("inability_to_urinate", "high") ].

Definition emergency_alert (symptom : string) : string :=
  "URGENT: " +:+ title (replace_char "_" " " symptom)
             +:+ " requires immediate veterinary attention".

(** One iteration of the loop of [check_emergency_conditions]; the state is
    the pair [(emergency_alerts, max_urgency)]. *)
Definition emergency_step
    (state : list string * string) (symptom : string) : list string * string :=
  let '(emergency_alerts, max_urgency) := state in
  match ODict.get symptom emergency_symptoms with
  | Some urgency =>
      let emergency_alerts := emergency_alerts ++ [emergency_alert symptom] in
      if String.eqb urgency "critical" then (emergency_alerts, "critical")
      else if String.eqb urgency "high" && negb (String.eqb max_urgency "critical")
      then (emergency_alerts, "high")
      else (emergency_alerts, max_urgency)
  | None => (emergency_alerts, max_urgency)
  end.

(** [RuleProcessor.check_emergency_conditions] *)
Definition check_emergency_conditions
    (symptoms : list string) (pet : Pet) : bool * list string :=
  let '(emergency_alerts, max_urgency) :=
    fold_left emergency_step symptoms ([], "low") in
  (str_in max_urgency ["high"; "critical"], emergency_alerts).

(** The table [species_exclusions] of [apply_exclusion_rules]. *)
Definition species_exclusions : odict (list string) :=
  [ ("feline_only", ["dog"; "bird"; "rabbit"]);
    ("canine_only", ["cat"; "bird"; "rabbit"]) ].

(** The inner [for ... break] loop over [species_exclusions.items()]. *)
Fixpoint species_exclusion_loop
    (table : list (string * list string)) (condition : Condition) (pet : Pet)
    (exclude : bool) : bool :=
  match table with
  | [] => exclude
  | (exclusion_type, excluded_species) :: rest =>
      if contains exclusion_type (id condition)
         && str_in (lower (species pet)) excluded_species
      then true
      else species_exclusion_loop rest condition pet exclude
  end.

(** The body of the outer loop: the final value of [exclude]. *)
Definition excluded (condition : Condition) (pet : Pet) : bool :=
  let exclude := false in
  let exclude :=
    if Qltb (age pet) 1 && contains "adult_only" (id condition) then true
    else if Qltb 10 (age pet) && contains "young_only" (id condition) then true
    else exclude in
  species_exclusion_loop (ODict.items species_exclusions) condition pet exclude.

(** [RuleProcessor.apply_exclusion_rules] *)
Definition apply_exclusion_rules
    (conditions : list Condition) (symptoms : list string) (pet : Pet)
    : list Condition :=
  fold_left
    (fun filtered_conditions condition =>
       if negb (excluded condition pet)
       then filtered_conditions ++ [condition]
       else filtered_conditions)
    conditions [].

(* ================================================================== *)
(** * [list.sort(key=..., reverse=True)] *)
(* ================================================================== *)

Module PyList.
Section Sort.
Context {A : Type} (key : A -> Q).

(** Python's sort is stable, also under [reverse=True]: elements with
    equal keys keep their order.  An element is therefore placed in front
    of the first element whose key is not strictly greater. *)
Fixpoint insert_desc (x : A) (l : list A) : list A :=
  match l with
  | [] => [x]
  | y :: rest =>
      if Qltb (key x) (key y) then y :: insert_desc x rest
      else x :: y :: rest
  end.

Fixpoint sort_desc (l : list A) : list A :=
  match l with
  | [] => []
  | x :: rest => insert_desc x (sort_desc rest)
  end.

(** Adjacent elements are in non-increasing key order. *)
Definition sorted_desc (l : list A) : Prop :=
  Sorted (fun a b => key b <= key a) l.

(** The elements whose key equals [q], in list order. *)
Definition with_key (q : Q) (l : list A) : list A :=
  List.filter (fun a => Qeq_bool (key a) q) l.

End Sort.
End PyList.

Import PyList.

(* ================================================================== *)
(** * app/utils/inference_engine.py *)
(* ================================================================== *)

(** One element of [condition_scores]. *)
Record ScoreRecord := {
  score_condition : Condition;
  confidence : Q;
  base_confidence : Q;
  risk_multiplier : Q
}.

(** The treatment part added by [recommendations.update]. *)
Record TreatmentAdvice := {
  advice_treatment_type : string;
  advice_description : string;
  advice_instructions : list string;
  advice_duration : string;
  advice_precautions : list string;
  seek_help_if : list string
}.

(** The two shapes of the dictionary built by [_generate_recommendations]. *)
Inductive Recommendations :=
| GenericAdvice (primary_action : string) (home_care : list string)
                (vet_consultation : string)
| DiagnosisAdvice (primary_diagnosis : string) (advice_confidence : Q)
                  (advice_severity : string) (treatment : option TreatmentAdvice).

(** The two shapes of the dictionary returned by [diagnose]. *)
Inductive DiagnosisResult :=
| EmergencyResult (alerts : list string) (recommendation : string)
                  (result_confidence : Q) (result_conditions : list ScoreRecord)
| NormalResult (result_conditions : list ScoreRecord)
               (recommendations : Recommendations)
               (pet_specific_notes : list string)
               (follow_up_questions : list string)
               (result_session_id : string) (result_timestamp : string).

(** The key ['emergency']. *)
Definition emergency (r : DiagnosisResult) : bool :=
  match r with EmergencyResult _ _ _ _ => true | NormalResult _ _ _ _ _ _ => false end.

(** The key ['conditions']. *)
Definition result_conditions (r : DiagnosisResult) : list ScoreRecord :=
  match r with
  | EmergencyResult _ _ _ cs => cs
  | NormalResult cs _ _ _ _ _ => cs
  end.

(** [InferenceEngine._generate_recommendations] *)
Definition _generate_recommendations
    (kb : KnowledgeBase) (conditions : list ScoreRecord) (pet : Pet)
    : Recommendations :=
  match conditions with
  | [] =>
      GenericAdvice
        "Monitor symptoms and consult veterinarian if they persist"
        ["Ensure pet is comfortable"; "Monitor for changes"]
        "Recommended if symptoms worsen or persist beyond 24-48 hours"
  | top_condition :: _ =>
      let the_condition_id := id (score_condition top_condition) in
      let treatments :=
        List.filter (fun t => String.eqb (condition_id t) the_condition_id)
                    (ODict.values (treatments kb)) in
      DiagnosisAdvice
        (name (score_condition top_condition))
        (confidence top_condition)
        (severity (score_condition top_condition))
        (match treatments with
         | [] => None
         | treatment :: _ =>
             Some {| advice_treatment_type := treatment_type treatment;
                     advice_description := treatment_description treatment;
                     advice_instructions := instructions treatment;
                     advice_duration := duration treatment;
                     advice_precautions := precautions treatment;
                     seek_help_if := when_to_seek_help treatment |}
         end)
  end.

(** Truth value of a list: non-empty. *)
Definition truthy {A} (l : list A) : bool :=
  match l with [] => false | _ :: _ => true end.

(** [InferenceEngine._generate_pet_specific_notes] *)
Definition _generate_pet_specific_notes (pet : Pet) (symptoms : list string)
    : list string :=
  let notes := [] in
  let notes :=
    if is_senior pet
    then notes ++ ["Senior pets may require more frequent monitoring and veterinary care."]
    else notes in
  let notes :=
    if Qltb (age pet) 1
    then notes ++ ["Young pets can deteriorate quickly - monitor closely for changes."]
    else notes in
  let notes :=
    if truthy (medical_history pet)
    then notes ++ ["Consider pet's medical history when evaluating symptoms."]
    else notes in
  let notes :=
    if truthy (current_medications pet)
    then notes ++ ["Current medications may affect symptoms or treatment options."]
    else notes in
  notes.

(** [InferenceEngine._generate_follow_up_questions] *)
Definition _generate_follow_up_questions (conditions : list ScoreRecord)
    : list string :=
  match conditions with
  | [] =>
      [ "How long have the symptoms been present?";
        "Have you noticed any changes in eating or drinking habits?";
        "Has your pet been exposed to any new environments or animals?" ]
  | first :: _ =>
      let top_condition := score_condition first in
      [ "Have you noticed any other symptoms related to "
          +:+ category top_condition +:+ "?";
        "When did you first notice these symptoms?";
        "Have the symptoms been getting better, worse, or staying the same?" ]
  end.

(** Step 5 of [diagnose]: the record appended for one condition. *)
Definition score_of
    (pet_modifications : Assessment) (reported : list string)
    (condition : Condition) : ScoreRecord :=
  let the_base_confidence := calculate_confidence condition reported in
  let multiplier :=
    default 1 (ODict.get (id condition) (risk_multipliers pet_modifications)) in
  let adjusted_confidence := py_min (the_base_confidence * multiplier) 1 in
  {| score_condition := condition;
     confidence := adjusted_confidence;
     base_confidence := the_base_confidence;
     risk_multiplier := multiplier |}.

(** The test of the list comprehension of step 6. *)
Definition meets_threshold (score : ScoreRecord) : bool :=
  Qle_bool (confidence_threshold (score_condition score)) (confidence score).

(** Steps 2 to 5 of [diagnose]: [condition_scores] before it is sorted. *)
Definition condition_scores (kb : KnowledgeBase) (session : DiagnosisSession)
    : list ScoreRecord :=
  let potential_conditions :=
    get_conditions_for_symptoms kb (reported_symptoms session) in
  let pet_modifications :=
    apply_pet_specific_rules kb (pet session) (reported_symptoms session) in
  let filtered_conditions :=
    apply_exclusion_rules potential_conditions
                          (reported_symptoms session) (pet session) in
  fold_left
    (fun scores condition =>
       scores ++ [score_of pet_modifications (reported_symptoms session) condition])
    filtered_conditions [].

(** [InferenceEngine.diagnose] *)
Definition diagnose (kb : KnowledgeBase) (session : DiagnosisSession)
    : DiagnosisResult :=
  let '(is_emergency, emergency_alerts) :=
    check_emergency_conditions (reported_symptoms session) (pet session) in
  if is_emergency then
    EmergencyResult emergency_alerts "SEEK IMMEDIATE VETERINARY ATTENTION" 1 []
  else
    let sorted_scores := sort_desc confidence (condition_scores kb session) in
    let probable_conditions := List.filter meets_threshold sorted_scores in
    let the_recommendations :=
      _generate_recommendations kb probable_conditions (pet session) in
    NormalResult
      (take 3 probable_conditions)
      the_recommendations
      (_generate_pet_specific_notes (pet session) (reported_symptoms session))
      (_generate_follow_up_questions probable_conditions)
      (session_id session)
      (isoformat (timestamp session)).

Section Explanation.
(** Python's number formatting is left abstract: [format_percent] renders
    [{x:.1%}], [format_fixed] renders [{x:.1f}]. *)
Variable format_percent : Q -> string.
Variable format_fixed : Q -> string.

Definition explain_one (condition_data : ScoreRecord) : string :=
  let condition := score_condition condition_data in
  let explanation :=
    "**" +:+ name condition +:+ "** (Confidence: "
         +:+ format_percent (confidence condition_data) +:+ "): " in
  let explanation :=
    explanation +:+ "Matches "
      +:+ pretty (length (required_symptoms condition))
      +:+ " required symptoms" in
  if negb (Qeq_bool (risk_multiplier condition_data) 1)
  then explanation +:+ " with " +:+ format_fixed (risk_multiplier condition_data)
                   +:+ "x risk adjustment for your pet"
  else explanation.

(** [" | ".join(parts)] *)
Fixpoint join_bar (parts : list string) : string :=
  match parts with
  | [] => ""
  | [p] => p
  | p :: rest => p +:+ " | " +:+ join_bar rest
  end.

(** [InferenceEngine.explain_reasoning] *)
Definition explain_reasoning (diagnosis_result : DiagnosisResult) : string :=
  if emergency diagnosis_result then
    "Emergency condition detected based on critical symptoms requiring immediate attention."
  else
    match result_conditions diagnosis_result with
    | [] =>
        "No specific conditions identified. Symptoms may be minor or require additional information."
    | conditions =>
        join_bar
          (fold_left (fun explanations condition_data =>
                        explanations ++ [explain_one condition_data])
                     (take 2 conditions) [])
    end.
End Explanation.

(* ================================================================== *)
(** * Loading the knowledge base *)
(* ================================================================== *)

Module Loading.

(** What [json.load] followed by the dataclass constructor makes of a
    file.  [Malformed e]: [json.load] raises, or the top-level key is
    absent ([data['symptoms']] raises).  [Entries es]: one element per
    entry of the array, [inl e] when building or storing the object
    raises, as the dataclass constructor does when the fields of the entry
    do not fit. *)
Inductive Document (A : Type) :=
| Malformed (e : string)
| Entries (es : list (string + A)).
Arguments Malformed {A} e.
Arguments Entries {A} es.

(** The data directory; [None] is a path for which [os.path.exists] is
    false.  [rules.json] is stored as parsed, without any construction. *)
Record DataDir := {
  symptoms_json : option (Document Symptom);
  conditions_json : option (Document Condition);
  treatments_json : option (Document Treatment);
  rules_json : option (string + PetRules)
}.

(** A loader step runs on the object under construction and either
    returns or raises; what it stored before raising stays stored. *)
Definition Loader : Type := KnowledgeBase -> KnowledgeBase * option string.

Definition done : Loader := fun self => (self, None).
Definition raise (e : string) : Loader := fun self => (self, Some e).
Definition seq (first second : Loader) : Loader :=
  fun self =>
    match first self with
    | (self', None) => second self'
    | (self', Some e) => (self', Some e)
    end.
Infix ">>" := seq (at level 62, right associativity).

(** The [for] loop shared by the three catalog loaders. *)
Fixpoint load_entries {A} (store : A -> KnowledgeBase -> KnowledgeBase)
    (es : list (string + A)) : Loader :=
  match es with
  | [] => done
  | inl e :: _ => raise e
  | inr x :: rest => (fun self => (store x self, None)) >> load_entries store rest
  end.

Definition load_document {A} (store : A -> KnowledgeBase -> KnowledgeBase)
    (file : option (Document A)) : Loader :=
  match file with
  | None => done
  | Some (Malformed e) => raise e
  | Some (Entries es) => load_entries store es
  end.

Definition store_symptom (symptom : Symptom) (self : KnowledgeBase) :=
  {| symptoms := ODict.set (symptom_id symptom) symptom (symptoms self);
     conditions := conditions self;
     treatments := treatments self;
     pet_specific_rules := pet_specific_rules self |}.

Definition store_condition (condition : Condition) (self : KnowledgeBase) :=
  {| symptoms := symptoms self;
     conditions := ODict.set (id condition) condition (conditions self);
     treatments := treatments self;
     pet_specific_rules := pet_specific_rules self |}.

Definition store_treatment (treatment : Treatment) (self : KnowledgeBase) :=
  {| symptoms := symptoms self;
     conditions := conditions self;
     treatments := ODict.set (treatment_id treatment) treatment (treatments self);
     pet_specific_rules := pet_specific_rules self |}.

Definition store_rules (rules : PetRules) (self : KnowledgeBase) :=
  {| symptoms := symptoms self;
     conditions := conditions self;
     treatments := treatments self;
     pet_specific_rules := rules |}.

(** [KnowledgeBase._load_symptoms] *)
Definition _load_symptoms (dir : DataDir) : Loader :=
  load_document store_symptom (symptoms_json dir).

(** [KnowledgeBase._load_conditions] *)
Definition _load_conditions (dir : DataDir) : Loader :=
  load_document store_condition (conditions_json dir).

(** [KnowledgeBase._load_treatments] *)
Definition _load_treatments (dir : DataDir) : Loader :=
  load_document store_treatment (treatments_json dir).

(** [KnowledgeBase._load_pet_rules] *)
Definition _load_pet_rules (dir : DataDir) : Loader :=
  match rules_json dir with
  | None => done
  | Some (inl e) => raise e
  | Some (inr rules) => fun self => (store_rules rules self, None)
  end.

(** [KnowledgeBase.load_knowledge]: the object after the call and the
    lines printed by the [except] branch.  Nothing is raised. *)
Definition load_knowledge (dir : DataDir) (self : KnowledgeBase)
    : KnowledgeBase * list string :=
  match (_load_symptoms dir >> _load_conditions dir >>
         _load_treatments dir >> _load_pet_rules dir) self with
  | (self', None) => (self', [])
  | (self', Some e) => (self', ["Error loading knowledge base: " +:+ e])
  end.

Definition no_pet_rules : PetRules :=
  {| rules_species := None; rules_age_categories := None |}.

(** The attributes assigned by [__init__] before it calls [load_knowledge]. *)
Definition empty_kb : KnowledgeBase :=
  {| symptoms := ODict.empty; conditions := ODict.empty;
     treatments := ODict.empty; pet_specific_rules := no_pet_rules |}.

(** [KnowledgeBase.__init__] *)
Definition init (dir : DataDir) : KnowledgeBase * list string :=
  load_knowledge dir empty_kb.

(** An entry from which the dataclass constructor builds an object. *)
Definition constructs {A} (e : string + A) : Prop :=
  match e with inl _ => False | inr _ => True end.

(** A document all of whose entries construct. *)
Definition valid {A} (file : Document A) : Prop :=
  match file with
  | Malformed _ => False
  | Entries es => Forall constructs es
  end.

(** The catalog a valid document yields when loaded into an empty one. *)
Definition catalog_of {A} (key : A -> string) (file : option (Document A)) : odict A :=
  match file with
  | Some (Entries es) =>
      fold_left (fun d e => match e with
                            | inr x => ODict.set (key x) x d
                            | inl _ => d
                            end) es ODict.empty
  | _ => ODict.empty
  end.

(** A source that is missing, or present and valid. *)
Definition source_ok {A} (file : option (Document A)) : Prop :=
  match file with
  | None => True
  | Some document => valid document
  end.

Definition rules_ok (file : option (string + PetRules)) : Prop :=
  match file with
  | Some (inl _) => False
  | _ => True
  end.

(** The rule table a readable [rules.json] yields. *)
Definition rules_of (file : option (string + PetRules)) : PetRules :=
  match file with
  | Some (inr rules) => rules
  | _ => no_pet_rules
  end.

End Loading.

(* ================================================================== *)
(** * Object-level model: who writes where *)
(* ================================================================== *)

(** [diagnose] receives references: the knowledge base and the session are
    shared with the caller.  The only statements in its call graph that
    write into an object that outlives an iteration are the item
    assignments of [apply_pet_specific_rules].  Here dictionaries of floats
    have an identity, and those assignments are writes through a
    reference. *)
Module Objects.

(** The state reachable from a call: the two arguments and the
    dictionaries allocated so far by the call itself. *)
Record World := {
  w_kb : KnowledgeBase;
  w_session : DiagnosisSession;
  w_locals : list (odict Q)
}.

(** The same arguments with another list of allocated dictionaries. *)
Definition with_locals (w : World) (locals : list (odict Q)) : World :=
  {| w_kb := w_kb w; w_session := w_session w; w_locals := locals |}.

(** The identity of a dictionary of floats.  The documents loaded from
    JSON are trees, so a dictionary stored in the rule table is named by
    its path. *)
Inductive Ref :=
| SpeciesFactors (key : string)
| AgeFactors (key : string)
| Local (n : nat).

Definition M (A : Type) : Type := World -> A * World.
Definition ret {A} (a : A) : M A := fun w => (a, w).
Definition bind {A B} (m : M A) (f : A -> M B) : M B :=
  fun w => let '(a, w') := m w in f a w'.
Notation "'let*' x ':=' m 'in' f" := (bind m (fun x => f))
  (at level 10, x name, m at level 100, f at level 200, only parsing).
Notation "m '>>' f" := (bind m (fun _ => f))
  (at level 62, right associativity, only parsing).

Definition the_kb : M KnowledgeBase := fun w => (w_kb w, w).
Definition the_session : M DiagnosisSession := fun w => (w_session w, w).

(** Sequential [for] loop. *)
Fixpoint for_each {A} (xs : list A) (body : A -> M unit) : M unit :=
  match xs with
  | [] => ret tt
  | x :: rest => body x >> for_each rest body
  end.

(** Rewriting the risk factors stored under [key] of one section of the
    rule table. *)
Definition update_section (key : string) (f : odict Q -> odict Q)
    (section : option (odict RuleSet)) : option (odict RuleSet) :=
  match section with
  | Some entries =>
      match ODict.get key entries with
      | Some {| risk_factors := Some factors |} =>
          Some (ODict.set key {| risk_factors := Some (f factors) |} entries)
      | _ => section
      end
  | None => None
  end.

Definition with_rules (rules : PetRules) (kb : KnowledgeBase) : KnowledgeBase :=
  {| symptoms := symptoms kb; conditions := conditions kb;
     treatments := treatments kb; pet_specific_rules := rules |}.

(** Applying [f] to the dictionary named by a reference. *)
Definition modify (r : Ref) (f : odict Q -> odict Q) : M unit :=
  fun w =>
    match r with
    | SpeciesFactors key =>
        let rules := pet_specific_rules (w_kb w) in
        (tt, {| w_kb := with_rules
                   {| rules_species := update_section key f (rules_species rules);
                      rules_age_categories := rules_age_categories rules |}
                   (w_kb w);
                w_session := w_session w; w_locals := w_locals w |})
    | AgeFactors key =>
        let rules := pet_specific_rules (w_kb w) in
        (tt, {| w_kb := with_rules
                   {| rules_species := rules_species rules;
                      rules_age_categories :=
                        update_section key f (rules_age_categories rules) |}
                   (w_kb w);
                w_session := w_session w; w_locals := w_locals w |})
    | Local n =>
        (tt, {| w_kb := w_kb w; w_session := w_session w;
                w_locals := alter f n (w_locals w) |})
    end.

(** The dictionary named by a reference, if there is one. *)
Definition deref (r : Ref) (w : World) : option (odict Q) :=
  match r with
  | SpeciesFactors key =>
      risk_factors (rules_lookup (rules_species (pet_specific_rules (w_kb w))) key)
  | AgeFactors key =>
      risk_factors (rules_lookup (rules_age_categories (pet_specific_rules (w_kb w))) key)
  | Local n => w_locals w !! n
  end.

(** [{}]: a new dictionary object. *)
Definition new_dict : M Ref :=
  fun w => (Local (length (w_locals w)),
            {| w_kb := w_kb w; w_session := w_session w;
               w_locals := w_locals w ++ [ODict.empty] |}).

(** [d[k] = v] *)
Definition setitem (r : Ref) (k : string) (v : Q) : M unit :=
  modify r (ODict.set k v).

(** [d.get(k)] *)
Definition getitem (r : Ref) (k : string) : M (option Q) :=
  fun w => (deref r w ≫= ODict.get k, w).

(** [list(d.items())] for the dictionary stored under ['risk_factors'],
    with the reference it is reached through. *)
Definition factors_of (r : Ref) : M (option (list (string * Q))) :=
  fun w => (ODict.items <$> deref r w, w).

(** [RuleProcessor.apply_pet_specific_rules]; the result is the reference
    stored under ['risk_multipliers']. *)
Definition apply_pet_specific_rules (pet : Pet) (symptoms : list string) : M Ref :=
  let species_ref := SpeciesFactors (lower (species pet)) in
  let age_ref := AgeFactors (get_age_category pet) in
  let* multipliers := new_dict in
  let* species_factors := factors_of species_ref in
  match species_factors with
  | Some factors =>
      for_each factors (fun '(condition_id, multiplier) =>
        setitem multipliers condition_id multiplier)
  | None => ret tt
  end >>
  let* age_factors := factors_of age_ref in
  match age_factors with
  | Some factors =>
      for_each factors (fun '(condition_id, multiplier) =>
        let* current := getitem multipliers condition_id in
        match current with
        | Some x => setitem multipliers condition_id (x * multiplier)
        | None => setitem multipliers condition_id multiplier
        end)
  | None => ret tt
  end >>
  ret multipliers.

(** Step 5 of [diagnose], reading the multiplier through the reference. *)
Definition score_of (multipliers : Ref) (reported : list string)
    (condition : Condition) : M ScoreRecord :=
  let* found := getitem multipliers (id condition) in
  let the_base_confidence := calculate_confidence condition reported in
  let multiplier := default 1 found in
  ret {| score_condition := condition;
         confidence := py_min (the_base_confidence * multiplier) 1;
         base_confidence := the_base_confidence;
         risk_multiplier := multiplier |}.

Fixpoint score_all (multipliers : Ref) (reported : list string)
    (filtered_conditions : list Condition) (scores : list ScoreRecord)
    : M (list ScoreRecord) :=
  match filtered_conditions with
  | [] => ret scores
  | condition :: rest =>
      let* s := score_of multipliers reported condition in
      score_all multipliers reported rest (scores ++ [s])
  end.

(** [InferenceEngine.diagnose] on references. *)
Definition diagnose : M DiagnosisResult :=
  let* session := the_session in
  let '(is_emergency, emergency_alerts) :=
    check_emergency_conditions (reported_symptoms session) (pet session) in
  if is_emergency then
    ret (EmergencyResult emergency_alerts "SEEK IMMEDIATE VETERINARY ATTENTION" 1 [])
  else
    let* kb := the_kb in
    let potential_conditions :=
      get_conditions_for_symptoms kb (reported_symptoms session) in
    let* multipliers := apply_pet_specific_rules (pet session) (reported_symptoms session) in
    let filtered_conditions :=
      apply_exclusion_rules potential_conditions
                            (reported_symptoms session) (pet session) in
    let* scores := score_all multipliers (reported_symptoms session) filtered_conditions [] in
    let sorted_scores := sort_desc confidence scores in
    let probable_conditions := List.filter meets_threshold sorted_scores in
    let* kb := the_kb in
    let the_recommendations :=
      _generate_recommendations kb probable_conditions (pet session) in
    ret (NormalResult
           (take 3 probable_conditions)
           the_recommendations
           (_generate_pet_specific_notes (pet session) (reported_symptoms session))
           (_generate_follow_up_questions probable_conditions)
           (session_id session)
           (isoformat (timestamp session))).

End Objects.

(* ================================================================== *)
(** * Specification-side vocabulary *)
(* ================================================================== *)

(** The test of the [if] of [get_conditions_for_symptoms]. *)
Definition qualifies (symptom_ids : list string) (condition : Condition) : bool :=
  required_match condition symptom_ids
  && negb (exclusion_conflict condition symptom_ids).

(** [needle] occurs somewhere inside [hay]. *)
Definition is_substring (needle hay : string) : Prop :=
  exists before after, hay = before +:+ needle +:+ after.

(** The reported symptom is a key of the emergency table. *)
Definition in_emergency_table (symptom : string) : bool :=
  ODict.mem symptom emergency_symptoms.

(** How many entries of [xs] occur in the report. *)
Definition count_present (xs present_symptoms : list string) : nat :=
  length (List.filter (fun symptom => str_in symptom present_symptoms) xs).

(** The number of required and optional symptoms a condition declares. *)
Definition total_possible (condition : Condition) : nat :=
  (length (required_symptoms condition) + length (optional_symptoms condition))%nat.

(** Weighted match ratio, as a fraction of two counts. *)
Definition match_ratio (condition : Condition) (present : list string) : Q :=
  Z.of_nat (2 * count_present (required_symptoms condition) present
            + 1 * count_present (optional_symptoms condition) present)
  # Pos.of_nat (2 * length (required_symptoms condition)
               + 1 * length (optional_symptoms condition)).

(** The four removal reasons of the exclusion rules. *)
Definition removal_reason (pet : Pet) (condition : Condition) : Prop :=
  (age pet < 1 /\ is_substring "adult_only" (id condition))
  \/ (10 < age pet /\ is_substring "young_only" (id condition))
  \/ (is_substring "feline_only" (id condition)
      /\ In (lower (species pet)) ["dog"; "bird"; "rabbit"])
  \/ (is_substring "canine_only" (id condition)
      /\ In (lower (species pet)) ["cat"; "bird"; "rabbit"]).

(** The factor the rule table gives a condition id for the pet's species,
    and the one it gives for the pet's age category. *)
Definition species_rule_set (kb : KnowledgeBase) (pet : Pet) : RuleSet :=
  rules_lookup (rules_species (pet_specific_rules kb)) (lower (species pet)).

Definition age_rule_set (kb : KnowledgeBase) (pet : Pet) : RuleSet :=
  rules_lookup (rules_age_categories (pet_specific_rules kb)) (get_age_category pet).

Definition factor_in (rule_set : RuleSet) (the_condition_id : string) : option Q :=
  risk_factors rule_set ≫= ODict.get the_condition_id.

(** The dictionary under ["risk_factors"], when there is one, has pairwise
    distinct keys. *)
Definition factors_wf (rule_set : RuleSet) : Prop :=
  match risk_factors rule_set with
  | Some factors => ODict.wf factors
  | None => True
  end.

(** The value a merged risk-multiplier map must hold for one id, given the
    species factor and the age factor for that id. *)
Definition combined_factor (species_factor age_factor : option Q) : option Q :=
  match species_factor, age_factor with
  | Some a, Some b => Some (a * b)
  | Some a, None => Some a
  | None, Some b => Some b
  | None, None => None
  end.

(* ================================================================== *)
(** * Sample data *)
(* ================================================================== *)

Module Sample.

Definition condition (the_id : string) (required optional excluded : list string)
    (threshold : Q) : Condition :=
  {| id := the_id; name := the_id; category := "general"; severity := "mild";
     required_symptoms := required; optional_symptoms := optional;
     exclusion_symptoms := excluded; confidence_threshold := threshold;
     description := ""; emergency_level := "low" |}.

Definition kennel_cough : Condition :=
  condition "kennel_cough" ["cough"] ["lethargy"] ["vomiting"] (1 # 2).
Definition general_malaise : Condition :=
  condition "general_malaise" [] ["lethargy"] ["vomiting"] (1 # 2).
Definition blank : Condition :=
  condition "blank" [] [] [] (1 # 2).

Definition rules : PetRules :=
  {| rules_species :=
       Some [("dog", {| risk_factors := Some [("kennel_cough", 3 # 2)] |})];
     rules_age_categories :=
       Some [("senior", {| risk_factors :=
                Some [("kennel_cough", 2 # 1); ("arthritis", 5 # 4)] |})] |}.

Definition kb : KnowledgeBase :=
  {| symptoms := [];
     conditions := [("kennel_cough", kennel_cough);
                    ("general_malaise", general_malaise)];
     treatments := [];
     pet_specific_rules := rules |}.

Definition rex (the_age : Q) : Pet :=
  {| pet_name := "Rex"; species := "Dog"; breed := None; age := the_age;
     weight := None; gender := "male"; medical_history := [];
     current_medications := []; allergies := []; last_vet_visit := None |}.

Definition session (the_age : Q) (reported : list string) : DiagnosisSession :=
  {| pet := rex the_age; reported_symptoms := reported;
     symptom_details := []; timestamp := "2024-05-01T10:00:00";
     session_id := "s-1" |}.

Definition bronchitis : Condition :=
  condition "bronchitis" ["cough"] ["lethargy"] [] (1 # 2).
Definition tracheitis : Condition :=
  condition "tracheitis" ["cough"] [] [] (1 # 2).
Definition pneumonia : Condition :=
  condition "pneumonia" ["cough"] ["fever"] [] (1 # 2).
Definition asthma : Condition :=
  condition "asthma" ["cough"] ["fever"] [] (3 # 4).

Definition ranking_kb : KnowledgeBase :=
  {| symptoms := [];
     conditions := [("bronchitis", bronchitis); ("tracheitis", tracheitis);
                    ("pneumonia", pneumonia); ("asthma", asthma)];
     treatments := [];
     pet_specific_rules := {| rules_species := None; rules_age_categories := None |} |}.

(** [symptoms.json] is not valid JSON; [conditions.json] is fine. *)
Definition broken_symptoms_dir : Loading.DataDir :=
  {| Loading.symptoms_json := Some (Loading.Malformed "Expecting value");
     Loading.conditions_json := Some (Loading.Entries [inr kennel_cough]);
     Loading.treatments_json := None;
     Loading.rules_json := Some (inr rules) |}.

(** No [symptoms.json]; the second entry of [conditions.json] lacks a
    field. *)
Definition broken_conditions_dir : Loading.DataDir :=
  {| Loading.symptoms_json := None;
     Loading.conditions_json :=
       Some (Loading.Entries [inr kennel_cough; inl "missing argument"]);
     Loading.treatments_json := Some (Loading.Entries []);
     Loading.rules_json := Some (inr rules) |}.

End Sample.

(* ================================================================== *)
(** * Further code: category queries and the symptoms page *)
(* ================================================================== *)

(** [KnowledgeBase.get_symptoms_by_category] *)
Definition get_symptoms_by_category (kb : KnowledgeBase) (the_category : string)
    : list Symptom :=
  List.filter (fun symptom => String.eqb (symptom_category symptom) the_category)
              (ODict.values (symptoms kb)).

Module Routes.

(** One iteration of the loop of [symptoms_page]: create the list of a
    category seen for the first time, then append to the list of the
    category. *)
Definition group_step (symptoms_by_category : odict (list Symptom))
    (symptom : Symptom) : odict (list Symptom) :=
  let the_category := symptom_category symptom in
  let symptoms_by_category :=
    if negb (ODict.mem the_category symptoms_by_category)
    then ODict.set the_category [] symptoms_by_category
    else symptoms_by_category in
  ODict.set the_category
            (default [] (ODict.get the_category symptoms_by_category) ++ [symptom])
            symptoms_by_category.

(** The dictionary [symptoms_by_category] that [symptoms_page] hands to the
    template. *)
Definition symptoms_by_category (kb : KnowledgeBase) : odict (list Symptom) :=
  fold_left group_step (ODict.values (symptoms kb)) ODict.empty.

End Routes.

(* ================================================================== *)
(** * Further specification-side vocabulary *)
(* ================================================================== *)

(** Two reports mention the same symptoms, whatever the order and the
    repetitions. *)
Definition same_symptoms (S S' : list string) : Prop :=
  forall x, In x S <-> In x S'.

(** The session with another report. *)
Definition with_reported (session : DiagnosisSession) (reported : list string)
    : DiagnosisSession :=
  {| pet := pet session; reported_symptoms := reported;
     symptom_details := symptom_details session;
     timestamp := timestamp session; session_id := session_id session |}.

(** Every character is an ASCII character.  On such text [lower] is
    Python's [str.lower]. *)
Fixpoint is_ascii (s : string) : bool :=
  match s with
  | EmptyString => true
  | String c rest => (Ascii.nat_of_ascii c <? 128)%nat && is_ascii rest
  end.

(** The pet with its species written differently. *)
Definition with_species (the_pet : Pet) (the_species : string) : Pet :=
  {| pet_name := pet_name the_pet; species := the_species;
     breed := breed the_pet; age := age the_pet; weight := weight the_pet;
     gender := gender the_pet; medical_history := medical_history the_pet;
     current_medications := current_medications the_pet;
     allergies := allergies the_pet; last_vet_visit := last_vet_visit the_pet |}.

(** The session with another pet. *)
Definition with_pet (session : DiagnosisSession) (the_pet : Pet)
    : DiagnosisSession :=
  {| pet := the_pet; reported_symptoms := reported_symptoms session;
     symptom_details := symptom_details session;
     timestamp := timestamp session; session_id := session_id session |}.

(** The four texts of [_generate_pet_specific_notes]. *)
Definition senior_note : string :=
  "Senior pets may require more frequent monitoring and veterinary care.".
Definition young_note : string :=
  "Young pets can deteriorate quickly - monitor closely for changes.".
Definition history_note : string :=
  "Consider pet's medical history when evaluating symptoms.".
Definition medication_note : string :=
  "Current medications may affect symptoms or treatment options.".

(** The three questions asked when no condition is reported. *)
Definition generic_questions : list string :=
  [ "How long have the symptoms been present?";
    "Have you noticed any changes in eating or drinking habits?";
    "Has your pet been exposed to any new environments or animals?" ].

(** The advice given when no condition is reported. *)
Definition generic_advice : Recommendations :=
  GenericAdvice
    "Monitor symptoms and consult veterinarian if they persist"
    ["Ensure pet is comfortable"; "Monitor for changes"]
    "Recommended if symptoms worsen or persist beyond 24-48 hours".

(** The part of the recommendation copied from a treatment. *)
Definition advice_of (treatment : Treatment) : TreatmentAdvice :=
  {| advice_treatment_type := treatment_type treatment;
     advice_description := treatment_description treatment;
     advice_instructions := instructions treatment;
     advice_duration := duration treatment;
     advice_precautions := precautions treatment;
     seek_help_if := when_to_seek_help treatment |}.

(** Every key of the catalog is the id of the object stored under it. *)
Definition keyed_by {A} (key : A -> string) (catalog : odict A) : Prop :=
  Forall (fun entry => fst entry = key (snd entry)) catalog.

(** Distinct keys, each the id of its object, in all three catalogs. *)
Definition catalogs_sound (kb : KnowledgeBase) : Prop :=
  (ODict.wf (symptoms kb) /\ keyed_by symptom_id (symptoms kb))
  /\ (ODict.wf (conditions kb) /\ keyed_by id (conditions kb))
  /\ (ODict.wf (treatments kb) /\ keyed_by treatment_id (treatments kb)).

(** The entries of a document that construct, up to the first that does
    not. *)
Fixpoint good_prefix {A} (es : list (string + A)) : list A :=
  match es with
  | inr x :: rest => x :: good_prefix rest
  | _ => []
  end.

(** The message of the first entry that does not construct. *)
Fixpoint first_error {A} (es : list (string + A)) : option string :=
  match es with
  | [] => None
  | inl e :: _ => Some e
  | inr _ :: rest => first_error rest
  end.

(** The last object with key [k] in a list of objects. *)
Definition last_with_key {A} (key : A -> string) (k : string) (xs : list A)
    : option A :=
  List.find (fun x => String.eqb (key x) k) (rev xs).

(** The catalog built by storing the objects one after the other. *)
Definition stored {A} (key : A -> string) (xs : list A) (catalog : odict A)
    : odict A :=
  fold_left (fun d x => ODict.set (key x) x d) xs catalog.

Module Clinic.

Definition symptom (the_id the_category : string) : Symptom :=
  {| symptom_id := the_id; symptom_name := the_id;
     symptom_category := the_category; severity_levels := ["mild"; "severe"];
     symptom_description := ""; common_pets := ["dog"; "cat"] |}.

Definition treatment (the_id for_condition : string) : Treatment :=
  {| treatment_id := the_id; condition_id := for_condition;
     treatment_type := "home_care"; treatment_description := the_id;
     instructions := ["rest"]; duration := "3 days"; precautions := [];
     when_to_seek_help := ["no improvement"] |}.

Definition kb : KnowledgeBase :=
  {| symptoms := [("cough", symptom "cough" "respiratory");
                  ("vomiting", symptom "vomiting" "digestive");
                  ("sneezing", symptom "sneezing" "respiratory")];
     conditions := [("bronchitis", Sample.bronchitis);
                    ("tracheitis", Sample.tracheitis)];
     treatments := [("t1", treatment "t1" "bronchitis");
                    ("t2", treatment "t2" "tracheitis");
                    ("t3", treatment "t3" "tracheitis")];
     pet_specific_rules := Sample.rules |}.

Definition hamster : Pet :=
  {| pet_name := "Nib"; species := "Hamster"; breed := None; age := 2;
     weight := None; gender := "female"; medical_history := [];
     current_medications := []; allergies := []; last_vet_visit := None |}.

Definition feline_only_flu : Condition :=
  Sample.condition "feline_only_flu" ["sneezing"] [] [] (1 # 2).

(** The second entry repeats the id of the first; the fourth does not
    construct. *)
Definition conditions_document : list (string + Condition) :=
  [ inr Sample.bronchitis;
    inr (Sample.condition "bronchitis" ["cough"; "fever"] [] [] (3 # 4));
    inr Sample.tracheitis;
    inl "missing 1 required positional argument";
    inr Sample.pneumonia ].

Definition partial_dir : Loading.DataDir :=
  {| Loading.symptoms_json := None;
     Loading.conditions_json := Some (Loading.Entries conditions_document);
     Loading.treatments_json := None;
     Loading.rules_json := None |}.

End Clinic.

(* ================================================================== *)
(** * The numeric path on IEEE 754 doubles *)
(* ================================================================== *)

From Corelib Require SpecFloat.

(** A Python [float] is an IEEE 754 binary64 number.  Where a result
    depends on rounding, on an infinity or on NaN, rationals say something
    else than the code does; this module gives the definitions through
    which numbers flow on doubles: the confidence, the risk multipliers,
    the scores, their ranking, and the comparisons with the age of the
    pet.  Numbers read from JSON are the doubles they denote; an integer
    is taken as the double it converts to. *)
Module Binary64.

(** A Python [float] is an IEEE 754 binary64 number: a zero, an infinity,
    NaN, or a finite number with mantissa and exponent.  The arithmetic
    rounds to nearest, ties to even, as the hardware does. *)
Definition float : Type := SpecFloat.spec_float.

Definition prec : Z := 53%Z.
Definition emax : Z := 1024%Z.

(** [float(n)] for an integer. *)
Definition of_Z (n : Z) : float := SpecFloat.binary_normalize prec emax n 0 false.
Definition of_nat (n : nat) : float := of_Z (Z.of_nat n).

(** [a * b], [a / b], [a < b], [a <= b], [a == b] *)
Definition mul : float -> float -> float := SpecFloat.SFmul prec emax.
Definition div : float -> float -> float := SpecFloat.SFdiv prec emax.
Definition ltb : float -> float -> bool := SpecFloat.SFltb.
Definition leb : float -> float -> bool := SpecFloat.SFleb.
Definition eqb : float -> float -> bool := SpecFloat.SFeqb.

Definition is_nan (x : float) : bool :=
  match x with SpecFloat.S754_nan => true | _ => false end.

(** [0.0], [1.0], [0.5], [float('inf')] *)
Definition zero : float := SpecFloat.S754_zero false.
Definition one : float := of_Z 1.
Definition half : float := div (of_Z 1) (of_Z 2).

(** [min(a, b)]: the first argument unless the second is smaller. *)
Definition py_min (a b : float) : float := if ltb b a then b else a.

(** [n / d] for two Python integers that are lengths or counts: both
    convert exactly, and the quotient is rounded once. *)
Definition true_div (n d : nat) : float := div (of_nat n) (of_nat d).

(** ** Data *)

Record Condition := {
  id : string;
  name : string;
  category : string;
  severity : string;
  required_symptoms : list string;
  optional_symptoms : list string;
  exclusion_symptoms : list string;
  confidence_threshold : float;
  description : string;
  emergency_level : string
}.

Record RuleSet := {
  risk_factors : option (odict float)
}.

Record PetRules := {
  rules_species : option (odict RuleSet);
  rules_age_categories : option (odict RuleSet)
}.

Record KnowledgeBase := {
  symptoms : odict Symptom;
  conditions : odict Condition;
  treatments : odict Treatment;
  pet_specific_rules : PetRules
}.

Record Pet := {
  pet_name : string;
  species : string;
  breed : option string;
  age : float;
  weight : option float;
  gender : string;
  medical_history : list string;
  current_medications : list string;
  allergies : list string;
  last_vet_visit : option string
}.

Record DiagnosisSession := {
  pet : Pet;
  reported_symptoms : list string;
  symptom_details : odict string;
  timestamp : datetime;
  session_id : string
}.

Record Assessment := {
  risk_multipliers : odict float;
  additional_symptoms : list string;
  exclusions : list string;
  urgency_modifiers : odict string
}.

Record ScoreRecord := {
  score_condition : Condition;
  confidence : float;
  base_confidence : float;
  risk_multiplier : float
}.

Inductive Recommendations :=
| GenericAdvice (primary_action : string) (home_care : list string)
                (vet_consultation : string)
| DiagnosisAdvice (primary_diagnosis : string) (advice_confidence : float)
                  (advice_severity : string) (treatment : option TreatmentAdvice).

Inductive DiagnosisResult :=
| EmergencyResult (alerts : list string) (recommendation : string)
                  (result_confidence : float) (returned : list ScoreRecord)
| NormalResult (returned : list ScoreRecord)
               (recommendations : Recommendations)
               (pet_specific_notes : list string)
               (follow_up_questions : list string)
               (result_session_id : string) (result_timestamp : string).

(** The keys ['emergency'] and ['conditions']. *)
Definition emergency (r : DiagnosisResult) : bool :=
  match r with EmergencyResult _ _ _ _ => true | NormalResult _ _ _ _ _ _ => false end.

Definition result_conditions (r : DiagnosisResult) : list ScoreRecord :=
  match r with
  | EmergencyResult _ _ _ cs => cs
  | NormalResult cs _ _ _ _ _ => cs
  end.

(** ** app/models/pet.py *)

(** [Pet.get_age_category] *)
Definition get_age_category (self : Pet) : string :=
  if String.eqb (lower (species self)) "dog" then
    if ltb (age self) half then "puppy"
    else if ltb (age self) (of_Z 7) then "adult"
    else "senior"
  else if String.eqb (lower (species self)) "cat" then
    if ltb (age self) half then "kitten"
    else if ltb (age self) (of_Z 10) then "adult"
    else "senior"
  else "unknown".

(** [Pet.is_senior] *)
Definition is_senior (self : Pet) : bool :=
  String.eqb (get_age_category self) "senior".

(** ** app/models/knowledge_base.py *)

Definition required_match (condition : Condition) (symptom_ids : list string) : bool :=
  forallb (fun req_symptom => str_in req_symptom symptom_ids)
          (required_symptoms condition).

Definition exclusion_conflict (condition : Condition) (symptom_ids : list string) : bool :=
  existsb (fun excl_symptom => str_in excl_symptom symptom_ids)
          (exclusion_symptoms condition).

(** [KnowledgeBase.get_conditions_for_symptoms] *)
Definition get_conditions_for_symptoms
    (kb : KnowledgeBase) (symptom_ids : list string) : list Condition :=
  fold_left
    (fun matching_conditions condition =>
       if required_match condition symptom_ids
          && negb (exclusion_conflict condition symptom_ids)
       then matching_conditions ++ [condition]
       else matching_conditions)
    (ODict.values (conditions kb)) [].

(** [KnowledgeBase.calculate_confidence] *)
Definition calculate_confidence
    (condition : Condition) (present_symptoms : list string) : float :=
  let total_possible :=
    (length (required_symptoms condition) + length (optional_symptoms condition))%nat in
  if (total_possible =? 0)%nat then zero
  else
    let required_score :=
      list_sum (map (fun _ => 2%nat)
        (List.filter (fun symptom => str_in symptom present_symptoms)
                     (required_symptoms condition))) in
    let optional_score :=
      list_sum (map (fun _ => 1%nat)
        (List.filter (fun symptom => str_in symptom present_symptoms)
                     (optional_symptoms condition))) in
    let max_possible_score :=
      (length (required_symptoms condition) * 2
       + length (optional_symptoms condition))%nat in
    let the_confidence :=
      true_div (required_score + optional_score) max_possible_score in
    py_min the_confidence one.

(** ** app/utils/rule_processor.py *)

Definition no_rules : RuleSet := {| risk_factors := None |}.

(** [rules.get(section, {}).get(key, {})] *)
Definition rules_lookup (section : option (odict RuleSet)) (key : string) : RuleSet :=
  default no_rules (ODict.get key (default ODict.empty section)).

Definition species_step (multipliers : odict float) (item : string * float)
    : odict float :=
  let '(condition_id, multiplier) := item in
  ODict.set condition_id multiplier multipliers.

Definition age_step (multipliers : odict float) (item : string * float)
    : odict float :=
  let '(condition_id, multiplier) := item in
  match ODict.get condition_id multipliers with
  | Some current => ODict.set condition_id (mul current multiplier) multipliers
  | None => ODict.set condition_id multiplier multipliers
  end.

(** [RuleProcessor.apply_pet_specific_rules] *)
Definition apply_pet_specific_rules
    (kb : KnowledgeBase) (pet : Pet) (symptoms : list string) : Assessment :=
  let rules := pet_specific_rules kb in
  let species_rules := rules_lookup (rules_species rules) (lower (species pet)) in
  let age_rules := rules_lookup (rules_age_categories rules) (get_age_category pet) in
  let multipliers := ODict.empty in
  let multipliers :=
    match risk_factors species_rules with
    | Some factors => fold_left species_step (ODict.items factors) multipliers
    | None => multipliers
    end in
  let multipliers :=
    match risk_factors age_rules with
    | Some factors => fold_left age_step (ODict.items factors) multipliers
    | None => multipliers
    end in
  {| risk_multipliers := multipliers;
     additional_symptoms := [];
     exclusions := [];
     urgency_modifiers := ODict.empty |}.

(** [RuleProcessor.check_emergency_conditions]: the loop body does not read
    the pet and is the one given above. *)
Definition check_emergency_conditions
    (symptoms : list string) (pet : Pet) : bool * list string :=
  let '(emergency_alerts, max_urgency) :=
    fold_left emergency_step symptoms ([], "low") in
  (str_in max_urgency ["high"; "critical"], emergency_alerts).

Fixpoint species_exclusion_loop
    (table : list (string * list string)) (condition : Condition) (pet : Pet)
    (exclude : bool) : bool :=
  match table with
  | [] => exclude
  | (exclusion_type, excluded_species) :: rest =>
      if contains exclusion_type (id condition)
         && str_in (lower (species pet)) excluded_species
      then true
      else species_exclusion_loop rest condition pet exclude
  end.

Definition excluded (condition : Condition) (pet : Pet) : bool :=
  let exclude := false in
  let exclude :=
    if ltb (age pet) (of_Z 1) && contains "adult_only" (id condition) then true
    else if ltb (of_Z 10) (age pet) && contains "young_only" (id condition) then true
    else exclude in
  species_exclusion_loop (ODict.items species_exclusions) condition pet exclude.

(** [RuleProcessor.apply_exclusion_rules] *)
Definition apply_exclusion_rules
    (conditions : list Condition) (symptoms : list string) (pet : Pet)
    : list Condition :=
  fold_left
    (fun filtered_conditions condition =>
       if negb (excluded condition pet)
       then filtered_conditions ++ [condition]
       else filtered_conditions)
    conditions [].

(** ** [list.sort(key=..., reverse=True)] on double keys *)

Section Sort.
Context {A : Type} (key : A -> float).

(** The sort is stable, also under [reverse=True].  When no key is NaN the
    comparison is a total preorder and the result is the only stable
    descending arrangement, which this insertion sort computes.  With a
    NaN key [<] is not an order and [list.sort] promises a permutation
    only; a list in which no key is less than the key that follows it is
    one run, which [list.sort] and this function both leave as it is.
    Statements on the order of the result are made for these two cases. *)
Fixpoint insert_desc (x : A) (l : list A) : list A :=
  match l with
  | [] => [x]
  | y :: rest =>
      if ltb (key x) (key y) then y :: insert_desc x rest
      else x :: y :: rest
  end.

Fixpoint sort_desc (l : list A) : list A :=
  match l with
  | [] => []
  | x :: rest => insert_desc x (sort_desc rest)
  end.

(** Adjacent elements are in non-increasing key order. *)
Definition sorted_desc (l : list A) : Prop :=
  Sorted (fun a b => leb (key b) (key a) = true) l.

(** The elements whose key compares equal to [q], in list order. *)
Definition with_key (q : float) (l : list A) : list A :=
  List.filter (fun a => eqb (key a) q) l.

(** No element has a NaN key. *)
Definition nan_free (l : list A) : Prop :=
  Forall (fun a => is_nan (key a) = false) l.

End Sort.

(** ** app/utils/inference_engine.py *)

(** [InferenceEngine._generate_recommendations] *)
Definition _generate_recommendations
    (kb : KnowledgeBase) (conditions : list ScoreRecord) (pet : Pet)
    : Recommendations :=
  match conditions with
  | [] =>
      GenericAdvice
        "Monitor symptoms and consult veterinarian if they persist"
        ["Ensure pet is comfortable"; "Monitor for changes"]
        "Recommended if symptoms worsen or persist beyond 24-48 hours"
  | top_condition :: _ =>
      let the_condition_id := id (score_condition top_condition) in
      let treatments :=
        List.filter (fun t => String.eqb (condition_id t) the_condition_id)
                    (ODict.values (treatments kb)) in
      DiagnosisAdvice
        (name (score_condition top_condition))
        (confidence top_condition)
        (severity (score_condition top_condition))
        (match treatments with
         | [] => None
         | treatment :: _ =>
             Some {| advice_treatment_type := treatment_type treatment;
                     advice_description := treatment_description treatment;
                     advice_instructions := instructions treatment;
                     advice_duration := duration treatment;
                     advice_precautions := precautions treatment;
                     seek_help_if := when_to_seek_help treatment |}
         end)
  end.

(** [InferenceEngine._generate_pet_specific_notes] *)
Definition _generate_pet_specific_notes (pet : Pet) (symptoms : list string)
    : list string :=
  let notes := [] in
  let notes :=
    if is_senior pet
    then notes ++ ["Senior pets may require more frequent monitoring and veterinary care."]
    else notes in
  let notes :=
    if ltb (age pet) (of_Z 1)
    then notes ++ ["Young pets can deteriorate quickly - monitor closely for changes."]
    else notes in
  let notes :=
    if truthy (medical_history pet)
    then notes ++ ["Consider pet's medical history when evaluating symptoms."]
    else notes in
  let notes :=
    if truthy (current_medications pet)
    then notes ++ ["Current medications may affect symptoms or treatment options."]
    else notes in
  notes.

(** [InferenceEngine._generate_follow_up_questions] *)
Definition _generate_follow_up_questions (conditions : list ScoreRecord)
    : list string :=
  match conditions with
  | [] =>
      [ "How long have the symptoms been present?";
        "Have you noticed any changes in eating or drinking habits?";
        "Has your pet been exposed to any new environments or animals?" ]
  | first :: _ =>
      let top_condition := score_condition first in
      [ "Have you noticed any other symptoms related to "
          +:+ category top_condition +:+ "?";
        "When did you first notice these symptoms?";
        "Have the symptoms been getting better, worse, or staying the same?" ]
  end.

(** Step 5 of [diagnose]: the record appended for one condition. *)
Definition score_of
    (pet_modifications : Assessment) (reported : list string)
    (condition : Condition) : ScoreRecord :=
  let the_base_confidence := calculate_confidence condition reported in
  let multiplier :=
    default one (ODict.get (id condition) (risk_multipliers pet_modifications)) in
  let adjusted_confidence := py_min (mul the_base_confidence multiplier) one in
  {| score_condition := condition;
     confidence := adjusted_confidence;
     base_confidence := the_base_confidence;
     risk_multiplier := multiplier |}.

(** The test of the list comprehension of step 6:
    [score['confidence'] >= score['condition'].confidence_threshold]. *)
Definition meets_threshold (score : ScoreRecord) : bool :=
  leb (confidence_threshold (score_condition score)) (confidence score).

(** Steps 2 to 5 of [diagnose]: [condition_scores] before it is sorted. *)
Definition condition_scores (kb : KnowledgeBase) (session : DiagnosisSession)
    : list ScoreRecord :=
  let potential_conditions :=
    get_conditions_for_symptoms kb (reported_symptoms session) in
  let pet_modifications :=
    apply_pet_specific_rules kb (pet session) (reported_symptoms session) in
  let filtered_conditions :=
    apply_exclusion_rules potential_conditions
                          (reported_symptoms session) (pet session) in
  fold_left
    (fun scores condition =>
       scores ++ [score_of pet_modifications (reported_symptoms session) condition])
    filtered_conditions [].

(** [InferenceEngine.diagnose] *)
Definition diagnose (kb : KnowledgeBase) (session : DiagnosisSession)
    : DiagnosisResult :=
  let '(is_emergency, emergency_alerts) :=
    check_emergency_conditions (reported_symptoms session) (pet session) in
  if is_emergency then
    EmergencyResult emergency_alerts "SEEK IMMEDIATE VETERINARY ATTENTION" one []
  else
    let sorted_scores := sort_desc confidence (condition_scores kb session) in
    let probable_conditions := List.filter meets_threshold sorted_scores in
    let the_recommendations :=
      _generate_recommendations kb probable_conditions (pet session) in
    NormalResult
      (take 3 probable_conditions)
      the_recommendations
      (_generate_pet_specific_notes (pet session) (reported_symptoms session))
      (_generate_follow_up_questions probable_conditions)
      (session_id session)
      (isoformat (timestamp session)).

(** ** Vocabulary of the statements *)

(** The advice and the questions of a result without conditions. *)
Definition generic_advice : Recommendations :=
  GenericAdvice
    "Monitor symptoms and consult veterinarian if they persist"
    ["Ensure pet is comfortable"; "Monitor for changes"]
    "Recommended if symptoms worsen or persist beyond 24-48 hours".

Definition generic_questions : list string :=
  [ "How long have the symptoms been present?";
    "Have you noticed any changes in eating or drinking habits?";
    "Has your pet been exposed to any new environments or animals?" ].

(** The pet with its species written differently. *)
Definition with_species (the_pet : Pet) (the_species : string) : Pet :=
  {| pet_name := pet_name the_pet; species := the_species;
     breed := breed the_pet; age := age the_pet; weight := weight the_pet;
     gender := gender the_pet; medical_history := medical_history the_pet;
     current_medications := current_medications the_pet;
     allergies := allergies the_pet; last_vet_visit := last_vet_visit the_pet |}.

(** The session with another pet. *)
Definition with_pet (session : DiagnosisSession) (the_pet : Pet)
    : DiagnosisSession :=
  {| pet := the_pet; reported_symptoms := reported_symptoms session;
     symptom_details := symptom_details session;
     timestamp := timestamp session; session_id := session_id session |}.

(** The scores of step 5, as the image of the filtered conditions. *)
Definition scores_of (kb : KnowledgeBase) (session : DiagnosisSession)
    : list ScoreRecord :=
  map (score_of (apply_pet_specific_rules kb (pet session) (reported_symptoms session))
                (reported_symptoms session))
      (apply_exclusion_rules
         (get_conditions_for_symptoms kb (reported_symptoms session))
         (reported_symptoms session) (pet session)).

(** No key is less than the key that follows it: the list is one run of
    the descending sort. *)
Definition one_run {A} (key : A -> float) (l : list A) : Prop :=
  Sorted (fun a b => ltb (key a) (key b) = false) l.

(** ** Order on doubles, as integers *)

(** A double that is not NaN, placed in a lexicographic order of integer
    triples: class, then exponent, then mantissa, the last two mirrored for
    negative numbers. *)
Definition ord (x : float) : Z * Z * Z :=
  match x with
  | SpecFloat.S754_nan => (0, 0, 0)%Z
  | SpecFloat.S754_infinity true => (-2, 0, 0)%Z
  | SpecFloat.S754_infinity false => (2, 0, 0)%Z
  | SpecFloat.S754_zero _ => (0, 0, 0)%Z
  | SpecFloat.S754_finite false m e => (1, e, Zpos m)%Z
  | SpecFloat.S754_finite true m e => (-1, - e, Zneg m)%Z
  end.

Definition lex3 (a b : Z * Z * Z) : comparison :=
  let '(a1, a2, a3) := a in
  let '(b1, b2, b3) := b in
  match (a1 ?= b1)%Z with
  | Eq => match (a2 ?= b2)%Z with
          | Eq => (a3 ?= b3)%Z
          | r => r
          end
  | r => r
  end.

(** The same order as propositions. *)
Definition lex_le (a b : Z * Z * Z) : Prop :=
  let '(a1, a2, a3) := a in
  let '(b1, b2, b3) := b in
  (a1 < b1 \/ (a1 = b1 /\ (a2 < b2 \/ (a2 = b2 /\ a3 <= b3))))%Z.

Definition lex_lt (a b : Z * Z * Z) : Prop :=
  let '(a1, a2, a3) := a in
  let '(b1, b2, b3) := b in
  (a1 < b1 \/ (a1 = b1 /\ (a2 < b2 \/ (a2 = b2 /\ a3 < b3))))%Z.

End Binary64.

(** Sample data on doubles. *)
Module Ward.
Import Binary64.

(** The double nearest to [a / b]; exact when [b] is a power of two. *)
Definition dec (a b : Z) : float := div (of_Z a) (of_Z b).

Definition condition (the_id : string) (required optional excluded : list string)
    (threshold : float) : Condition :=
  {| id := the_id; name := the_id; category := "general"; severity := "mild";
     required_symptoms := required; optional_symptoms := optional;
     exclusion_symptoms := excluded; confidence_threshold := threshold;
     description := ""; emergency_level := "low" |}.

Definition the_pet (the_species : string) (the_age : float) : Pet :=
  {| pet_name := "Rex"; species := the_species; breed := None; age := the_age;
     weight := None; gender := "male"; medical_history := [];
     current_medications := []; allergies := []; last_vet_visit := None |}.

Definition session (the_species : string) (the_age : float)
    (reported : list string) : DiagnosisSession :=
  {| pet := the_pet the_species the_age; reported_symptoms := reported;
     symptom_details := []; timestamp := "2024-05-01T10:00:00";
     session_id := "s-1" |}.

Definition kb_of (the_conditions : list Condition)
    (species_factors : odict float) : KnowledgeBase :=
  {| symptoms := [];
     conditions := map (fun c => (id c, c)) the_conditions;
     treatments := [("t1", Clinic.treatment "t1" "cold");
                    ("t2", Clinic.treatment "t2" "cough_syndrome")];
     pet_specific_rules :=
       {| rules_species := Some [("dog", {| risk_factors := Some species_factors |})];
          rules_age_categories := None |} |}.

(** Three qualifying conditions for the report ["cough"]: base confidence
    2/4, 0/1 and 2/2. *)
Definition cold : Condition :=
  condition "cold" ["cough"] ["fever"; "sneezing"] [] (dec 1 4).
Definition malaise : Condition :=
  condition "malaise" [] ["lethargy"] [] (dec 1 4).
Definition cough_syndrome : Condition :=
  condition "cough_syndrome" ["cough"] [] [] (dec 1 4).


Definition plain_kb : KnowledgeBase :=
  kb_of [cold; malaise; cough_syndrome] [("cold", dec 3 2)].

(** Base confidence 3/11 with factor 3.4375 and threshold 0.9375: the
    exact product is 15/16, the rounded one is below. *)
Definition edge : Condition :=
  condition "edge" ["cough"]
            ["o1"; "o2"; "o3"; "o4"; "o5"; "o6"; "o7"; "o8"; "fever"] []
            (dec 15 16).

Definition edge_kb : KnowledgeBase :=
  kb_of [edge] [("edge", dec 55 16)].

End Ward.

(* ================================================================== *)
(** * Lemmas on the Python primitives *)
(* ================================================================== *)

Lemma str_in_In x xs : str_in x xs = true <-> In x xs.
Proof.
  unfold str_in. rewrite existsb_exists. split.
  - intros (y & Hy & Heq). apply String.eqb_eq in Heq. now subst.
  - intros H. exists x. split; [assumption | apply String.eqb_refl].
Qed.

Lemma str_in_false x xs : str_in x xs = false <-> ~ In x xs.
Proof.
  rewrite <- str_in_In. destruct (str_in x xs); split; intros; congruence.
Qed.

(** The append loops of the code build a filtered, respectively mapped,
    copy of the list they run over. *)
Lemma append_if_loop {A} (p : A -> bool) (l acc : list A) :
  fold_left (fun out x => if p x then out ++ [x] else out) l acc
  = acc ++ List.filter p l.
Proof.
  revert acc. induction l as [|x l IH]; intros acc; simpl.
  - now rewrite app_nil_r.
  - rewrite IH. destruct (p x); simpl; [| reflexivity].
    now rewrite <- app_assoc.
Qed.

Lemma append_map_loop {A B} (f : A -> B) (l : list A) (acc : list B) :
  fold_left (fun out x => out ++ [f x]) l acc = acc ++ map f l.
Proof.
  revert acc. induction l as [|x l IH]; intros acc; simpl.
  - now rewrite app_nil_r.
  - rewrite IH. now rewrite <- app_assoc.
Qed.

(* ================================================================== *)
(** * Candidate retrieval *)
(* ================================================================== *)

Lemma get_conditions_for_symptoms_filter kb S :
  get_conditions_for_symptoms kb S
  = List.filter (qualifies S) (ODict.values (conditions kb)).
Proof.
  unfold get_conditions_for_symptoms.
  now rewrite (append_if_loop (qualifies S)).
Qed.

Lemma required_match_iff C S :
  required_match C S = true <-> (forall s, In s (required_symptoms C) -> In s S).
Proof.
  unfold required_match. rewrite forallb_forall.
  split; intros H s Hs; apply str_in_In; auto.
Qed.

Lemma exclusion_conflict_iff C S :
  exclusion_conflict C S = false <-> (forall s, In s (exclusion_symptoms C) -> ~ In s S).
Proof.
  unfold exclusion_conflict. split.
  - intros H s Hs Hin.
    assert (existsb (fun e => str_in e S) (exclusion_symptoms C) = true) as Ht.
    { apply existsb_exists. exists s. split; [assumption | now apply str_in_In]. }
    congruence.
  - intros H. destruct (existsb _ _) eqn:E; [| reflexivity].
    apply existsb_exists in E as (s & Hs & Hin).
    apply str_in_In in Hin. exfalso. eapply H; eauto.
Qed.

Lemma qualifies_iff C S :
  qualifies S C = true <->
  (forall s, In s (required_symptoms C) -> In s S)
  /\ (forall s, In s (exclusion_symptoms C) -> ~ In s S).
Proof.
  unfold qualifies. rewrite andb_true_iff, negb_true_iff.
  now rewrite required_match_iff, exclusion_conflict_iff.
Qed.

(** C1. A condition of the catalog is returned by
    [get_conditions_for_symptoms] exactly when all its required symptoms
    are reported and none of its exclusion symptoms is; a condition
    without required symptoms and without a reported exclusion symptom is
    therefore returned, also for the empty report. *)
Theorem get_conditions_for_symptoms_iff kb S C :
  In C (ODict.values (conditions kb)) ->
  (In C (get_conditions_for_symptoms kb S) <->
     (forall s, In s (required_symptoms C) -> In s S)
     /\ (forall s, In s (exclusion_symptoms C) -> ~ In s S))
  /\ (required_symptoms C = [] ->
      (forall s, In s (exclusion_symptoms C) -> ~ In s S) ->
      In C (get_conditions_for_symptoms kb S))
  /\ (required_symptoms C = [] -> In C (get_conditions_for_symptoms kb [])).
Proof.
  intros HC. rewrite !get_conditions_for_symptoms_filter.
  assert (forall S', In C (List.filter (qualifies S') (ODict.values (conditions kb)))
                     <-> (forall s, In s (required_symptoms C) -> In s S')
                         /\ (forall s, In s (exclusion_symptoms C) -> ~ In s S')) as Hiff.
  { intros S'. rewrite filter_In, qualifies_iff. tauto. }
  split; [apply Hiff |]. split.
  - intros Hreq Hex. apply Hiff. split; [| assumption].
    rewrite Hreq. intros s [].
  - intros Hreq. apply Hiff. split.
    + rewrite Hreq. intros s [].
    + intros s _ [].
Qed.

Lemma get_conditions_for_symptoms_iff_witness :
  In Sample.general_malaise (get_conditions_for_symptoms Sample.kb [])
  /\ ~ In Sample.kennel_cough (get_conditions_for_symptoms Sample.kb []).
Proof.
  split.
  - apply (get_conditions_for_symptoms_iff Sample.kb [] Sample.general_malaise).
    + simpl. right. left. reflexivity.
    + reflexivity.
  - intros H.
    apply (get_conditions_for_symptoms_iff Sample.kb [] Sample.kennel_cough) in H.
    + destruct H as [H _]. apply (H "cough"). simpl. left. reflexivity.
    + simpl. left. reflexivity.
Defined.

(* ================================================================== *)
(** * Confidence *)
(* ================================================================== *)

Lemma py_min_Qmin a b : py_min a b = Qmin a b.
Proof.
  unfold py_min, Qltb, Qmin, GenericMinMax.gmin.
  destruct (Qle_bool a b) eqn:E; simpl.
  - apply Qle_bool_iff in E. unfold Qle in E. unfold Qcompare.
    destruct (Qnum a * QDen b ?= Qnum b * QDen a)%Z eqn:Ec; try reflexivity.
    apply Z.compare_gt_iff in Ec. lia.
  - assert (~ a <= b) as Hn by (rewrite <- Qle_bool_iff; congruence).
    unfold Qle in Hn. unfold Qcompare.
    destruct (Qnum a * QDen b ?= Qnum b * QDen a)%Z eqn:Ec; try reflexivity.
    + apply Z.compare_eq_iff in Ec. lia.
    + rewrite Z.compare_lt_iff in Ec. lia.
Qed.

Lemma list_sum_const {A} (k : nat) (l : list A) :
  list_sum (map (fun _ => k) l) = (k * length l)%nat.
Proof. induction l as [|x l IH]; simpl; lia. Qed.

Lemma count_present_le xs S : (count_present xs S <= length xs)%nat.
Proof. apply filter_length_le. Qed.

Lemma count_present_all xs S :
  (forall s, In s xs -> In s S) -> count_present xs S = length xs.
Proof.
  unfold count_present. induction xs as [|x xs IH]; intros H; simpl; [reflexivity |].
  assert (str_in x S = true) as -> by (apply str_in_In, H; now left).
  simpl. f_equal. apply IH. intros s Hs. apply H. now right.
Qed.

Lemma calculate_confidence_unfold C S :
  total_possible C <> 0%nat ->
  calculate_confidence C S = py_min (match_ratio C S) 1.
Proof.
  intros Hne. unfold calculate_confidence, match_ratio, true_div, count_present.
  fold (total_possible C).
  destruct (Nat.eqb_spec (total_possible C) 0%nat) as [E|_];
    [contradiction |].
  rewrite !list_sum_const. do 2 f_equal; f_equal; lia.
Qed.

Lemma ratio_nonneg (n d : nat) : 0 <= Z.of_nat n # Pos.of_nat d.
Proof. unfold Qle; simpl. lia. Qed.

Lemma ratio_full (n : nat) : n <> 0%nat -> Z.of_nat n # Pos.of_nat n == 1.
Proof.
  intros Hn. unfold Qeq; simpl.
  rewrite <- (positive_nat_Z (Pos.of_nat n)), Nat2Pos.id by assumption. lia.
Qed.

(** C2 (amended). The confidence is [0] for a condition without required
    and optional symptoms; otherwise it is the weighted match ratio clamped
    to at most one.  It always lies between zero and one, and it is one
    when the condition declares at least one symptom and all its required
    and optional symptoms are reported. *)
Theorem calculate_confidence_spec C S :
  (total_possible C = 0%nat ->
     calculate_confidence C S = 0)
  /\ (total_possible C <> 0%nat ->
     calculate_confidence C S = Qmin (match_ratio C S) 1)
  /\ (0 <= calculate_confidence C S /\ calculate_confidence C S <= 1)
  /\ (total_possible C <> 0%nat ->
      (forall s, In s (required_symptoms C) -> In s S) ->
      (forall s, In s (optional_symptoms C) -> In s S) ->
      calculate_confidence C S == 1).
Proof.
  split; [| split; [| split]].
  - intros Hz. unfold calculate_confidence. fold (total_possible C).
    now destruct (Nat.eqb_spec (total_possible C) 0%nat).
  - intros Hne. rewrite calculate_confidence_unfold by assumption.
    apply py_min_Qmin.
  - destruct (Nat.eq_dec (total_possible C) 0%nat) as [Hz|Hne].
    + unfold calculate_confidence. fold (total_possible C).
      destruct (Nat.eqb_spec (total_possible C) 0%nat);
        [| contradiction].
      split; unfold Qle; simpl; lia.
    + rewrite calculate_confidence_unfold, py_min_Qmin by assumption. split.
      * apply Q.min_glb; [apply ratio_nonneg | unfold Qle; simpl; lia].
      * apply Q.le_min_r.
  - intros Hne Hreq Hopt.
    rewrite calculate_confidence_unfold, py_min_Qmin by assumption.
    unfold match_ratio. rewrite !count_present_all by assumption.
    apply Q.min_r, Qle_lteq. right. symmetry. apply ratio_full.
    unfold total_possible in Hne. lia.
Qed.

Lemma calculate_confidence_spec_witness :
  calculate_confidence Sample.blank ["cough"] = 0
  /\ calculate_confidence Sample.kennel_cough ["cough"; "lethargy"] == 1.
Proof.
  split.
  - apply (proj1 (calculate_confidence_spec Sample.blank ["cough"])).
    reflexivity.
  - apply (proj2 (proj2 (proj2
      (calculate_confidence_spec Sample.kennel_cough ["cough"; "lethargy"])))).
    + discriminate.
    + simpl. intros s [<- | []]. now left.
    + simpl. intros s [<- | []]. right. now left.
Defined.

(** C2, as stated, fails for a condition that declares no symptom: every
    report contains all of its (zero) symptoms, yet the confidence is
    zero. *)
Lemma calculate_confidence_no_symptoms :
  (forall s, In s (required_symptoms Sample.blank) -> In s [])
  /\ (forall s, In s (optional_symptoms Sample.blank) -> In s [])
  /\ calculate_confidence Sample.blank [] = 0
  /\ ~ calculate_confidence Sample.blank [] == 1.
Proof.
  split; [intros s [] | split; [intros s [] | split]].
  - reflexivity.
  - intros H. vm_compute in H. discriminate.
Qed.

(* ================================================================== *)
(** * The emergency gate *)
(* ================================================================== *)

Lemma emergency_table_urgency symptom urgency :
  ODict.get symptom emergency_symptoms = Some urgency ->
  urgency = "critical" \/ urgency = "high".
Proof.
  unfold emergency_symptoms. cbn [ODict.get]. intros H.
  repeat match type of H with
         | (if ?b then _ else _) = _ =>
             destruct b; [injection H as <-; auto |]
         end.
  discriminate.
Qed.

Lemma truthy_snoc {A} (l : list A) (x : A) : truthy (l ++ [x]) = true.
Proof. now destruct l. Qed.

Lemma truthy_true_iff {A} (l : list A) : truthy l = true <-> l <> [].
Proof. destruct l; simpl; split; congruence. Qed.

(** Invariant of the loop of [check_emergency_conditions]: the alerts are
    those of the table hits seen so far, in order, and the urgency is
    ["high"] or ["critical"] exactly when there is an alert. *)
Lemma emergency_loop symptoms alerts max_urgency :
  str_in max_urgency ["high"; "critical"] = truthy alerts ->
  let '(alerts', max_urgency') :=
    fold_left emergency_step symptoms (alerts, max_urgency) in
  alerts' = alerts ++ map emergency_alert (List.filter in_emergency_table symptoms)
  /\ str_in max_urgency' ["high"; "critical"] = truthy alerts'.
Proof.
  revert alerts max_urgency.
  induction symptoms as [|s symptoms IH]; intros alerts max_urgency Hinv.
  - simpl. now rewrite app_nil_r.
  - cbn [fold_left List.filter].
    unfold in_emergency_table at 1, ODict.mem, emergency_step at 2.
    destruct (ODict.get s emergency_symptoms) as [urgency|] eqn:Hget.
    + assert (exists mu, (if String.eqb urgency "critical"
                          then (alerts ++ [emergency_alert s], "critical")
                          else if String.eqb urgency "high"
                                  && negb (String.eqb max_urgency "critical")
                               then (alerts ++ [emergency_alert s], "high")
                               else (alerts ++ [emergency_alert s], max_urgency))
                         = (alerts ++ [emergency_alert s], mu)
                         /\ str_in mu ["high"; "critical"] = true) as (mu & -> & Hmu).
      { destruct (emergency_table_urgency _ _ Hget) as [-> | ->]; simpl.
        - now exists "critical".
        - destruct (String.eqb max_urgency "critical") eqn:Ec; simpl.
          + apply String.eqb_eq in Ec. subst. now exists "critical".
          + now exists "high". }
      specialize (IH (alerts ++ [emergency_alert s]) mu).
      rewrite truthy_snoc in IH. specialize (IH Hmu).
      destruct (fold_left _ _ _) as [alerts' mu'].
      destruct IH as [-> IH]. split; [| assumption].
      now rewrite <- app_assoc.
    + specialize (IH alerts max_urgency Hinv).
      destruct (fold_left _ _ _) as [alerts' mu']. assumption.
Qed.

Lemma check_emergency_conditions_eq symptoms pet :
  check_emergency_conditions symptoms pet
  = (truthy (map emergency_alert (List.filter in_emergency_table symptoms)),
     map emergency_alert (List.filter in_emergency_table symptoms)).
Proof.
  unfold check_emergency_conditions.
  pose proof (emergency_loop symptoms [] "low" eq_refl) as H.
  destruct (fold_left _ _ _) as [alerts mu]. destruct H as [-> Hmu].
  simpl app in *. now rewrite Hmu.
Qed.

Lemma filtered_map_nonempty {A B} (f : A -> B) (p : A -> bool) (l : list A) :
  map f (List.filter p l) <> [] <-> exists x, In x l /\ p x = true.
Proof.
  split.
  - intros H. destruct (List.filter p l) as [|x l'] eqn:E; [contradiction |].
    exists x. apply filter_In. rewrite E. now left.
  - intros (x & Hx & Hp) E.
    assert (In x (List.filter p l)) as Hin by (apply filter_In; auto).
    destruct (List.filter p l); [contradiction | discriminate].
Qed.

(** C10. The alerts of [check_emergency_conditions] are one per reported
    symptom that is a key of the emergency table, in report order; the
    flag is true exactly when there is an alert, that is, exactly when a
    reported symptom is in the table. *)
Theorem check_emergency_conditions_spec symptoms pet :
  snd (check_emergency_conditions symptoms pet)
    = map emergency_alert (List.filter in_emergency_table symptoms)
  /\ (fst (check_emergency_conditions symptoms pet) = true
      <-> snd (check_emergency_conditions symptoms pet) <> [])
  /\ (snd (check_emergency_conditions symptoms pet) <> []
      <-> exists s, In s symptoms /\ in_emergency_table s = true).
Proof.
  rewrite check_emergency_conditions_eq. cbn [fst snd].
  split; [reflexivity |]. split.
  - apply truthy_true_iff.
  - apply filtered_map_nonempty.
Qed.

(** C3. When a reported symptom is in the emergency table, [diagnose]
    returns the emergency result: flag set, confidence one, at least one
    alert, no conditions.  The result is the same for every knowledge base
    and every pet, so no later stage contributes to it. *)
Theorem diagnose_emergency_short_circuit kb session :
  (exists s, In s (reported_symptoms session) /\ in_emergency_table s = true) ->
  diagnose kb session
    = EmergencyResult
        (map emergency_alert
             (List.filter in_emergency_table (reported_symptoms session)))
        "SEEK IMMEDIATE VETERINARY ATTENTION" 1 []
  /\ map emergency_alert
         (List.filter in_emergency_table (reported_symptoms session)) <> []
  /\ emergency (diagnose kb session) = true
  /\ result_conditions (diagnose kb session) = []
  /\ (forall kb' session',
        reported_symptoms session' = reported_symptoms session ->
        diagnose kb' session' = diagnose kb session).
Proof.
  intros Hhit.
  assert (forall kb0 session0,
            reported_symptoms session0 = reported_symptoms session ->
            diagnose kb0 session0
            = EmergencyResult
                (map emergency_alert
                   (List.filter in_emergency_table (reported_symptoms session)))
                "SEEK IMMEDIATE VETERINARY ATTENTION" 1 []) as Heq.
  { intros kb0 session0 Hsame. unfold diagnose.
    rewrite check_emergency_conditions_eq, Hsame.
    apply filtered_map_nonempty with (f := emergency_alert) in Hhit.
    apply truthy_true_iff in Hhit. now rewrite Hhit. }
  split; [now apply Heq |].
  split; [now apply filtered_map_nonempty |].
  rewrite (Heq kb session eq_refl). cbn [emergency result_conditions].
  split; [reflexivity |]. split; [reflexivity |].
  intros kb' session' Hsame. now apply Heq.
Qed.

Lemma diagnose_emergency_short_circuit_witness :
  diagnose Sample.kb (Sample.session 8 ["cough"; "difficulty_breathing"])
  = EmergencyResult
      ["URGENT: Difficulty Breathing requires immediate veterinary attention"]
      "SEEK IMMEDIATE VETERINARY ATTENTION" 1 [].
Proof.
  apply (proj1 (diagnose_emergency_short_circuit
           Sample.kb (Sample.session 8 ["cough"; "difficulty_breathing"])
           (ex_intro _ "difficulty_breathing"
              (conj (or_intror (or_introl eq_refl)) eq_refl)))).
Defined.

(* ================================================================== *)
(** * Exclusion rules *)
(* ================================================================== *)

Lemma prefix_iff needle hay :
  String.prefix needle hay = true <-> exists rest, hay = needle +:+ rest.
Proof.
  revert hay. induction needle as [|a needle IH]; intros hay.
  - split; [intros _; now exists hay | now destruct hay].
  - destruct hay as [|b hay]; simpl.
    + split; [discriminate | intros (rest & H); discriminate].
    + destruct (ascii_dec a b) as [<- | Hne].
      * rewrite IH. split; intros (rest & H); exists rest.
        -- now rewrite H.
        -- now injection H.
      * split; [discriminate |]. intros (rest & H). injection H as H1 H2.
        congruence.
Qed.

Lemma contains_unfold needle hay :
  contains needle hay
  = if String.prefix needle hay then true
    else match hay with
         | EmptyString => false
         | String _ rest => contains needle rest
         end.
Proof. now destruct hay. Qed.

Lemma contains_iff needle hay :
  contains needle hay = true <-> is_substring needle hay.
Proof.
  unfold is_substring. split.
  - induction hay as [|c hay IH]; rewrite contains_unfold;
      destruct (String.prefix needle _) eqn:Hp.
    + intros _. apply prefix_iff in Hp as (rest & ->). now exists "", rest.
    + discriminate.
    + intros _. apply prefix_iff in Hp as (rest & ->). now exists "", rest.
    + intros H. destruct (IH H) as (before & after & ->).
      now exists (String c before), after.
  - intros (before & after & ->).
    induction before as [|c before IH]; rewrite contains_unfold.
    + assert (String.prefix needle ("" +:+ needle +:+ after) = true) as ->
        by (apply prefix_iff; now exists after).
      reflexivity.
    + destruct (String.prefix needle _); [reflexivity |]. exact IH.
Qed.

Lemma Qltb_iff a b : Qltb a b = true <-> a < b.
Proof.
  unfold Qltb. rewrite negb_true_iff. split.
  - intros H. apply Qnot_le_lt. rewrite <- Qle_bool_iff. congruence.
  - intros H. destruct (Qle_bool b a) eqn:E; [| reflexivity].
    apply Qle_bool_iff in E. exfalso. now apply (Qlt_not_le a b).
Qed.

(** The nested conditionals and the loop with [break] compute a
    disjunction of the four tests. *)
Lemma excluded_orb condition pet :
  excluded condition pet
  = (Qltb (age pet) 1 && contains "adult_only" (id condition))
    || (Qltb 10 (age pet) && contains "young_only" (id condition))
    || (contains "feline_only" (id condition)
        && str_in (lower (species pet)) ["dog"; "bird"; "rabbit"])
    || (contains "canine_only" (id condition)
        && str_in (lower (species pet)) ["cat"; "bird"; "rabbit"]).
Proof.
  unfold excluded, species_exclusions, ODict.items.
  cbn [species_exclusion_loop].
  destruct (Qltb (age pet) 1 && contains "adult_only" (id condition));
    destruct (Qltb 10 (age pet) && contains "young_only" (id condition));
    destruct (contains "feline_only" (id condition)
              && str_in (lower (species pet)) ["dog"; "bird"; "rabbit"]);
    destruct (contains "canine_only" (id condition)
              && str_in (lower (species pet)) ["cat"; "bird"; "rabbit"]);
    reflexivity.
Qed.

Lemma excluded_iff condition pet :
  excluded condition pet = true <-> removal_reason pet condition.
Proof.
  rewrite excluded_orb. unfold removal_reason.
  rewrite !orb_true_iff, !andb_true_iff, !Qltb_iff, !contains_iff, !str_in_In.
  tauto.
Qed.

(** C6. [apply_exclusion_rules] keeps, in their original order, exactly the
    candidates for which none of the four removal reasons holds. *)
Theorem apply_exclusion_rules_spec conditions symptoms pet :
  apply_exclusion_rules conditions symptoms pet
    = List.filter (fun condition => negb (excluded condition pet)) conditions
  /\ (forall condition,
        excluded condition pet = true <-> removal_reason pet condition)
  /\ (forall condition,
        In condition (apply_exclusion_rules conditions symptoms pet)
        <-> In condition conditions /\ ~ removal_reason pet condition).
Proof.
  assert (apply_exclusion_rules conditions symptoms pet
          = List.filter (fun condition => negb (excluded condition pet)) conditions)
    as Heq.
  { unfold apply_exclusion_rules.
    now rewrite (append_if_loop (fun condition => negb (excluded condition pet))). }
  split; [exact Heq |]. split; [intros; apply excluded_iff |].
  intros condition. rewrite Heq, filter_In, negb_true_iff, <- excluded_iff.
  destruct (excluded condition pet); split; intros [H1 H2]; split;
    congruence.
Qed.

(* ================================================================== *)
(** * Risk multipliers *)
(* ================================================================== *)

Lemma odict_get_set {V} (k k' : string) (v : V) (d : odict V) :
  ODict.get k' (ODict.set k v d)
  = if String.eqb k' k then Some v else ODict.get k' d.
Proof.
  induction d as [|[k0 v0] d IH]; simpl.
  - reflexivity.
  - destruct (String.eqb_spec k k0) as [-> | Hne]; simpl.
    + now destruct (String.eqb k' k0).
    + destruct (String.eqb_spec k' k0) as [-> | Hne'].
      * destruct (String.eqb_spec k0 k); [congruence | reflexivity].
      * exact IH.
Qed.

Lemma odict_get_None {V} (k : string) (d : odict V) :
  ~ In k (ODict.keys d) -> ODict.get k d = None.
Proof.
  induction d as [|[k0 v0] d IH]; simpl; [reflexivity |].
  intros Hnot. destruct (String.eqb_spec k k0) as [-> | Hne].
  - exfalso. apply Hnot. now left.
  - apply IH. intros Hin. apply Hnot. now right.
Qed.

(** The first loop copies the species factors. *)
Lemma species_loop (factors acc : odict Q) (k : string) :
  ODict.wf factors ->
  ODict.get k (fold_left species_step factors acc)
  = match ODict.get k factors with
    | Some v => Some v
    | None => ODict.get k acc
    end.
Proof.
  unfold ODict.wf. revert acc.
  induction factors as [|[k0 v0] factors IH]; intros acc Hwf; simpl.
  - reflexivity.
  - simpl in Hwf. apply NoDup_cons in Hwf as [Hnot Hwf].
    rewrite IH by assumption. rewrite odict_get_set.
    destruct (String.eqb_spec k k0) as [-> | Hne]; [| reflexivity].
    rewrite odict_get_None; [reflexivity |].
    intros Hin. apply Hnot. now apply list_elem_of_In.
Qed.

(** The second loop multiplies into a key that is present and assigns a
    key that is not. *)
Lemma age_loop (factors acc : odict Q) (k : string) :
  ODict.wf factors ->
  ODict.get k (fold_left age_step factors acc)
  = match ODict.get k factors with
    | Some b => Some (match ODict.get k acc with
                      | Some a => a * b
                      | None => b
                      end)
    | None => ODict.get k acc
    end.
Proof.
  unfold ODict.wf. revert acc.
  induction factors as [|[k0 v0] factors IH]; intros acc Hwf; simpl.
  - reflexivity.
  - simpl in Hwf. apply NoDup_cons in Hwf as [Hnot Hwf].
    rewrite IH by assumption.
    destruct (String.eqb_spec k k0) as [-> | Hne].
    + rewrite odict_get_None
        by (intros Hin; apply Hnot; now apply list_elem_of_In).
      destruct (ODict.get k0 acc); rewrite odict_get_set, String.eqb_refl;
        reflexivity.
    + assert (ODict.get k (match ODict.get k0 acc with
                           | Some current => ODict.set k0 (current * v0) acc
                           | None => ODict.set k0 v0 acc
                           end) = ODict.get k acc) as ->.
      { destruct (ODict.get k0 acc); rewrite odict_get_set;
          now destruct (String.eqb_spec k k0). }
      reflexivity.
Qed.

Lemma risk_multipliers_lookup kb pet symptoms k :
  factors_wf (species_rule_set kb pet) ->
  factors_wf (age_rule_set kb pet) ->
  ODict.get k (risk_multipliers (apply_pet_specific_rules kb pet symptoms))
  = combined_factor (factor_in (species_rule_set kb pet) k)
                    (factor_in (age_rule_set kb pet) k).
Proof.
  unfold factors_wf, factor_in, apply_pet_specific_rules. cbn [risk_multipliers].
  fold (species_rule_set kb pet). fold (age_rule_set kb pet).
  intros Hs Ha.
  destruct (risk_factors (species_rule_set kb pet)) as [sf|];
    destruct (risk_factors (age_rule_set kb pet)) as [af|]; cbn [mbind option_bind].
  - rewrite age_loop, species_loop by assumption. unfold ODict.items. simpl.
    destruct (ODict.get k sf), (ODict.get k af); reflexivity.
  - rewrite species_loop by assumption. unfold ODict.items. simpl.
    now destruct (ODict.get k sf).
  - rewrite age_loop by assumption. unfold ODict.items. simpl.
    now destruct (ODict.get k af).
  - reflexivity.
Qed.

(** C5. In the map produced by [apply_pet_specific_rules], an id with a
    species factor and an age factor holds their product, an id with only
    one of them holds that factor, and an id with neither is absent; a
    condition whose id is absent is scored with multiplier one. *)
Theorem apply_pet_specific_rules_spec kb pet symptoms :
  factors_wf (species_rule_set kb pet) ->
  factors_wf (age_rule_set kb pet) ->
  (forall k a b,
     factor_in (species_rule_set kb pet) k = Some a ->
     factor_in (age_rule_set kb pet) k = Some b ->
     ODict.get k (risk_multipliers (apply_pet_specific_rules kb pet symptoms))
     = Some (a * b))
  /\ (forall k a,
     factor_in (species_rule_set kb pet) k = Some a ->
     factor_in (age_rule_set kb pet) k = None ->
     ODict.get k (risk_multipliers (apply_pet_specific_rules kb pet symptoms))
     = Some a)
  /\ (forall k b,
     factor_in (species_rule_set kb pet) k = None ->
     factor_in (age_rule_set kb pet) k = Some b ->
     ODict.get k (risk_multipliers (apply_pet_specific_rules kb pet symptoms))
     = Some b)
  /\ (forall k,
     factor_in (species_rule_set kb pet) k = None ->
     factor_in (age_rule_set kb pet) k = None ->
     ODict.get k (risk_multipliers (apply_pet_specific_rules kb pet symptoms))
     = None)
  /\ (forall reported condition,
     ODict.get (id condition)
               (risk_multipliers (apply_pet_specific_rules kb pet symptoms)) = None ->
     risk_multiplier
       (score_of (apply_pet_specific_rules kb pet symptoms) reported condition) = 1).
Proof.
  intros Hs Ha.
  repeat split.
  - intros k a b Hsk Hak. rewrite risk_multipliers_lookup by assumption.
    now rewrite Hsk, Hak.
  - intros k a Hsk Hak. rewrite risk_multipliers_lookup by assumption.
    now rewrite Hsk, Hak.
  - intros k b Hsk Hak. rewrite risk_multipliers_lookup by assumption.
    now rewrite Hsk, Hak.
  - intros k Hsk Hak. rewrite risk_multipliers_lookup by assumption.
    now rewrite Hsk, Hak.
  - intros reported condition Hnone. unfold score_of. cbn [risk_multiplier].
    now rewrite Hnone.
Qed.

Lemma apply_pet_specific_rules_spec_witness :
  ODict.get "kennel_cough"
            (risk_multipliers (apply_pet_specific_rules Sample.kb (Sample.rex 8) []))
    = Some ((3 # 2) * (2 # 1))
  /\ (3 # 2) * (2 # 1) == 3
  /\ ODict.get "arthritis"
               (risk_multipliers (apply_pet_specific_rules Sample.kb (Sample.rex 8) []))
     = Some (5 # 4).
Proof.
  assert (factors_wf (species_rule_set Sample.kb (Sample.rex 8))) as Hs.
  { vm_compute. apply (bool_decide_unpack _). vm_compute. exact I. }
  assert (factors_wf (age_rule_set Sample.kb (Sample.rex 8))) as Ha.
  { vm_compute. apply (bool_decide_unpack _). vm_compute. exact I. }
  pose proof (apply_pet_specific_rules_spec Sample.kb (Sample.rex 8) [] Hs Ha)
    as (Hboth & _ & Honly_age & _).
  split; [| split].
  - apply Hboth; reflexivity.
  - reflexivity.
  - apply Honly_age; reflexivity.
Defined.

(* ================================================================== *)
(** * Sorting by key, descending and stable *)
(* ================================================================== *)

Section SortFacts.
Context {A : Type} (key : A -> Q).

Lemma insert_desc_perm x l : Permutation (insert_desc key x l) (x :: l).
Proof.
  induction l as [|y l IH]; simpl.
  - apply Permutation_refl.
  - destruct (Qltb (key x) (key y)).
    + eapply perm_trans; [apply perm_skip, IH | apply perm_swap].
    + apply Permutation_refl.
Qed.

Lemma sort_desc_perm l : Permutation (sort_desc key l) l.
Proof.
  induction l as [|x l IH]; simpl.
  - apply perm_nil.
  - eapply perm_trans; [apply insert_desc_perm | now apply perm_skip].
Qed.







Lemma filter_sorted_desc (p : A -> bool) l :
  sorted_desc key l -> sorted_desc key (List.filter p l).
Proof.
  unfold sorted_desc. intros Hs.
  apply StronglySorted_Sorted.
  apply Sorted_StronglySorted in Hs;
    [| intros a b c Hab Hbc; eapply Qle_trans; eassumption].
  induction Hs as [|x l Hs IH Hall]; simpl; [constructor |].
  destruct (p x); [| assumption].
  constructor; [assumption |].
  apply List.Forall_forall. intros y Hy. apply filter_In in Hy as [Hy _].
  rewrite List.Forall_forall in Hall. now apply Hall.
Qed.

End SortFacts.

(* ================================================================== *)
(** * Ranking and threshold *)
(* ================================================================== *)

Lemma condition_scores_map kb session :
  condition_scores kb session
  = map (score_of (apply_pet_specific_rules kb (pet session) (reported_symptoms session))
                  (reported_symptoms session))
        (apply_exclusion_rules
           (get_conditions_for_symptoms kb (reported_symptoms session))
           (reported_symptoms session) (pet session)).
Proof. unfold condition_scores. now rewrite append_map_loop. Qed.

Lemma diagnose_not_emergency kb session :
  emergency (diagnose kb session) = false ->
  diagnose kb session
  = let probable_conditions :=
      List.filter meets_threshold
                  (sort_desc confidence (condition_scores kb session)) in
    NormalResult
      (take 3 probable_conditions)
      (_generate_recommendations kb probable_conditions (pet session))
      (_generate_pet_specific_notes (pet session) (reported_symptoms session))
      (_generate_follow_up_questions probable_conditions)
      (session_id session)
      (isoformat (timestamp session)).
Proof.
  unfold diagnose. destruct (check_emergency_conditions _ _) as [[|] alerts].
  - discriminate.
  - reflexivity.
Qed.

(* ================================================================== *)
(** * Determinism *)
(* ================================================================== *)

Lemma condition_scores_session kb session session' :
  pet session' = pet session ->
  reported_symptoms session' = reported_symptoms session ->
  condition_scores kb session' = condition_scores kb session.
Proof. unfold condition_scores. now intros -> ->. Qed.

(** C8. Two sessions with the same pet and the same reported symptoms,
    diagnosed against the same knowledge base, give results of the same
    shape that agree on every field except the session id and the
    timestamp, which are those of the respective session; the explanations
    derived from the two results are equal. *)
Theorem diagnose_deterministic
    (format_percent format_fixed : Q -> string)
    (kb : KnowledgeBase) (the_pet : Pet) (reported : list string)
    (details1 details2 : odict string) (t1 t2 : datetime) (sid1 sid2 : string) :
  let session1 :=
    {| pet := the_pet; reported_symptoms := reported;
       symptom_details := details1; timestamp := t1; session_id := sid1 |} in
  let session2 :=
    {| pet := the_pet; reported_symptoms := reported;
       symptom_details := details2; timestamp := t2; session_id := sid2 |} in
  match diagnose kb session1, diagnose kb session2 with
  | EmergencyResult alerts1 rec1 conf1 conds1,
    EmergencyResult alerts2 rec2 conf2 conds2 =>
      alerts1 = alerts2 /\ rec1 = rec2 /\ conf1 = conf2 /\ conds1 = conds2
  | NormalResult conds1 rec1 notes1 questions1 id1 ts1,
    NormalResult conds2 rec2 notes2 questions2 id2 ts2 =>
      conds1 = conds2 /\ rec1 = rec2 /\ notes1 = notes2
      /\ questions1 = questions2
      /\ id1 = sid1 /\ id2 = sid2
      /\ ts1 = isoformat t1 /\ ts2 = isoformat t2
  | _, _ => False
  end
  /\ explain_reasoning format_percent format_fixed (diagnose kb session1)
     = explain_reasoning format_percent format_fixed (diagnose kb session2).
Proof.
  intros session1 session2. unfold diagnose.
  rewrite (condition_scores_session kb session1 session2) by reflexivity.
  cbn [pet reported_symptoms session_id timestamp session1 session2].
  destruct (check_emergency_conditions reported the_pet) as [[|] alerts].
  - repeat split.
  - repeat split.
Qed.

(* ================================================================== *)
(** * Frame: what [diagnose] leaves untouched *)
(* ================================================================== *)

Section ObjectFacts.
Lemma setitem_last w locals d k v :
  Objects.setitem (Objects.Local (length locals)) k v (Objects.with_locals w (locals ++ [d]))
  = (tt, Objects.with_locals w (locals ++ [ODict.set k v d])).
Proof.
  unfold Objects.setitem, Objects.modify, Objects.with_locals. cbn [Objects.w_kb Objects.w_session Objects.w_locals].
  do 2 f_equal.
  replace (length locals) with (length locals + 0)%nat by lia.
  now rewrite alter_app_r.
Qed.

Lemma getitem_last w locals d k :
  Objects.getitem (Objects.Local (length locals)) k (Objects.with_locals w (locals ++ [d]))
  = (ODict.get k d, Objects.with_locals w (locals ++ [d])).
Proof.
  unfold Objects.getitem, Objects.deref, Objects.with_locals. cbn [Objects.w_locals].
  now rewrite list_lookup_middle.
Qed.

Lemma species_loop_last w locals factors d :
  Objects.for_each factors
    (fun '(condition_id, multiplier) =>
       Objects.setitem (Objects.Local (length locals)) condition_id multiplier)
    (Objects.with_locals w (locals ++ [d]))
  = (tt, Objects.with_locals w (locals ++ [fold_left species_step factors d])).
Proof.
  revert d. induction factors as [|[k v] factors IH]; intros d.
  - reflexivity.
  - cbn [Objects.for_each fold_left]. unfold Objects.bind at 1.
    rewrite setitem_last. apply IH.
Qed.

Lemma age_loop_last w locals factors d :
  Objects.for_each factors
    (fun '(condition_id, multiplier) =>
       Objects.bind (Objects.getitem (Objects.Local (length locals)) condition_id)
         (fun current =>
            match current with
            | Some x => Objects.setitem (Objects.Local (length locals)) condition_id (x * multiplier)
            | None => Objects.setitem (Objects.Local (length locals)) condition_id multiplier
            end))
    (Objects.with_locals w (locals ++ [d]))
  = (tt, Objects.with_locals w (locals ++ [fold_left age_step factors d])).
Proof.
  revert d. induction factors as [|[k v] factors IH]; intros d.
  - reflexivity.
  - cbn [Objects.for_each fold_left]. unfold Objects.bind at 1. unfold Objects.bind at 1.
    rewrite getitem_last. unfold age_step at 2.
    destruct (ODict.get k d); rewrite setitem_last; apply IH.
Qed.

(** The object-level run allocates one dictionary, fills it with what the
    value-level function computes, and writes nowhere else. *)
Lemma apply_pet_specific_rules_run pet symptoms w :
  Objects.apply_pet_specific_rules pet symptoms w
  = (Objects.Local (length (Objects.w_locals w)),
     Objects.with_locals w
       (Objects.w_locals w
        ++ [risk_multipliers (apply_pet_specific_rules (Objects.w_kb w) pet symptoms)])).
Proof.
  unfold Objects.apply_pet_specific_rules, apply_pet_specific_rules.
  cbn [risk_multipliers].
  unfold Objects.bind at 1. unfold Objects.new_dict.
  change {| Objects.w_kb := Objects.w_kb w; Objects.w_session := Objects.w_session w;
            Objects.w_locals := Objects.w_locals w ++ [ODict.empty] |}
    with (Objects.with_locals w (Objects.w_locals w ++ [ODict.empty])).
  unfold Objects.bind at 1. unfold Objects.factors_of at 1, Objects.deref. cbn [Objects.w_kb Objects.with_locals].
  change {| Objects.w_kb := Objects.w_kb w; Objects.w_session := Objects.w_session w;
            Objects.w_locals := Objects.w_locals w ++ [ODict.empty] |}
    with (Objects.with_locals w (Objects.w_locals w ++ [ODict.empty])).
  set (sf := risk_factors (rules_lookup (rules_species (pet_specific_rules (Objects.w_kb w)))
                                        (lower (species pet)))).
  set (af := risk_factors (rules_lookup (rules_age_categories (pet_specific_rules (Objects.w_kb w)))
                                        (get_age_category pet))).
  unfold Objects.bind at 1.
  assert (forall d0 (o : option (odict Q)) (step : odict Q -> string * Q -> odict Q)
                 (body : string * Q -> Objects.M unit),
            (forall fs d, Objects.for_each fs body (Objects.with_locals w (Objects.w_locals w ++ [d]))
                          = (tt, Objects.with_locals w (Objects.w_locals w ++ [fold_left step fs d]))) ->
            match ODict.items <$> o with
            | Some factors => Objects.for_each factors body
            | None => Objects.ret tt
            end (Objects.with_locals w (Objects.w_locals w ++ [d0]))
            = (tt, Objects.with_locals w
                     (Objects.w_locals w ++ [match o with
                                     | Some factors => fold_left step (ODict.items factors) d0
                                     | None => d0
                                     end]))) as Hloop.
  { intros d0 [fs|] step body Hbody; cbn [fmap option_fmap option_map].
    - apply Hbody.
    - reflexivity. }
  rewrite (Hloop _ sf species_step) by (intros; apply species_loop_last).
  unfold Objects.bind at 1. unfold Objects.factors_of at 1, Objects.deref. cbn [Objects.w_kb Objects.with_locals].
  fold af. unfold Objects.bind at 1.
  rewrite (Hloop _ af age_step) by (intros; apply age_loop_last).
  reflexivity.
Qed.

Lemma score_all_run w locals (mods : Assessment) reported conds acc :
  Objects.score_all (Objects.Local (length locals)) reported conds acc
            (Objects.with_locals w (locals ++ [risk_multipliers mods]))
  = (acc ++ map (score_of mods reported) conds,
     Objects.with_locals w (locals ++ [risk_multipliers mods])).
Proof.
  revert acc. induction conds as [|c conds IH]; intros acc.
  - cbn [Objects.score_all map]. now rewrite app_nil_r.
  - cbn [Objects.score_all map]. unfold Objects.bind at 1. unfold Objects.score_of.
    unfold Objects.bind at 1. rewrite getitem_last. unfold Objects.ret at 1.
    rewrite IH. now rewrite <- app_assoc.
Qed.

Lemma diagnose_run w :
  Objects.diagnose w
  = (diagnose (Objects.w_kb w) (Objects.w_session w),
     if fst (check_emergency_conditions (reported_symptoms (Objects.w_session w))
                                        (pet (Objects.w_session w)))
     then w
     else Objects.with_locals w
            (Objects.w_locals w
             ++ [risk_multipliers
                   (apply_pet_specific_rules (Objects.w_kb w) (pet (Objects.w_session w))
                      (reported_symptoms (Objects.w_session w)))])).
Proof.
  unfold Objects.diagnose, diagnose. unfold Objects.bind at 1. unfold Objects.the_session at 1.
  destruct (check_emergency_conditions _ _) as [[|] alerts]; cbn [fst].
  - reflexivity.
  - unfold Objects.bind at 1. unfold Objects.the_kb at 1.
    unfold Objects.bind at 1. rewrite apply_pet_specific_rules_run.
    unfold Objects.bind at 1. rewrite score_all_run.
    unfold Objects.bind at 1. unfold Objects.the_kb, Objects.ret. cbn [Objects.w_kb Objects.with_locals app].
    rewrite condition_scores_map. reflexivity.
Qed.

End ObjectFacts.

(** C9. A run of [diagnose] on references returns the knowledge base (all
    three catalogs and the rule table) and the session (pet and reported
    symptoms) as it found them, leaves every dictionary that existed
    before the call as it was, and computes the value-level result. *)
Theorem diagnose_frame (w : Objects.World) :
  let result := fst (Objects.diagnose w) in
  let w' := snd (Objects.diagnose w) in
  symptoms (Objects.w_kb w') = symptoms (Objects.w_kb w)
  /\ conditions (Objects.w_kb w') = conditions (Objects.w_kb w)
  /\ treatments (Objects.w_kb w') = treatments (Objects.w_kb w)
  /\ pet_specific_rules (Objects.w_kb w') = pet_specific_rules (Objects.w_kb w)
  /\ pet (Objects.w_session w') = pet (Objects.w_session w)
  /\ reported_symptoms (Objects.w_session w')
     = reported_symptoms (Objects.w_session w)
  /\ Objects.w_kb w' = Objects.w_kb w
  /\ Objects.w_session w' = Objects.w_session w
  /\ (forall n d, Objects.w_locals w !! n = Some d ->
                  Objects.w_locals w' !! n = Some d)
  /\ result = diagnose (Objects.w_kb w) (Objects.w_session w).
Proof.
  cbv zeta. rewrite diagnose_run. cbn [fst snd].
  destruct (fst (check_emergency_conditions _ _)).
  - repeat split; auto.
  - repeat split; cbn [Objects.with_locals Objects.w_kb Objects.w_session Objects.w_locals].
    intros n d Hn. now apply lookup_app_l_Some.
Qed.

(* ================================================================== *)
(** * Loading *)
(* ================================================================== *)

Section LoadingFacts.
Import Loading.

Lemma load_entries_frame {A B} (store : A -> KnowledgeBase -> KnowledgeBase)
    (proj : KnowledgeBase -> B) :
  (forall x kb, proj (store x kb) = proj kb) ->
  forall es self, proj (fst (load_entries store es self)) = proj self.
Proof.
  intros Hstore es. induction es as [|[e|x] es IH]; intros self; try reflexivity.
  cbn [load_entries]. unfold seq. rewrite IH. apply Hstore.
Qed.

Lemma load_entries_ok {A} (store : A -> KnowledgeBase -> KnowledgeBase)
    (key : A -> string) (catalog : KnowledgeBase -> odict A) :
  (forall x kb, catalog (store x kb) = ODict.set (key x) x (catalog kb)) ->
  forall es self,
    Forall constructs es ->
    snd (load_entries store es self) = None
    /\ catalog (fst (load_entries store es self))
       = fold_left (fun d e => match e with
                               | inr x => ODict.set (key x) x d
                               | inl _ => d
                               end) es (catalog self).
Proof.
  intros Hstore es. induction es as [|[e|x] es IH]; intros self Hall.
  - now split.
  - apply Forall_cons in Hall as [[] _].
  - apply Forall_cons in Hall as [_ Hall].
    cbn [load_entries fold_left]. unfold seq.
    rewrite <- Hstore. now apply IH.
Qed.

Lemma load_entries_bad {A} (store : A -> KnowledgeBase -> KnowledgeBase) es self :
  ~ Forall constructs es ->
  exists e, snd (load_entries store es self) = Some e.
Proof.
  revert self. induction es as [|[e|x] es IH]; intros self Hbad.
  - exfalso. apply Hbad. constructor.
  - now exists e.
  - cbn [load_entries]. unfold seq. apply IH.
    intros Hall. apply Hbad. now constructor.
Qed.

Lemma load_document_frame {A B} (store : A -> KnowledgeBase -> KnowledgeBase)
    (proj : KnowledgeBase -> B) file self :
  (forall x kb, proj (store x kb) = proj kb) ->
  proj (fst (load_document store file self)) = proj self.
Proof.
  intros Hstore. destruct file as [[e|es]|]; try reflexivity.
  now apply load_entries_frame.
Qed.

Lemma load_document_ok {A} (store : A -> KnowledgeBase -> KnowledgeBase)
    (key : A -> string) (catalog : KnowledgeBase -> odict A) file self :
  (forall x kb, catalog (store x kb) = ODict.set (key x) x (catalog kb)) ->
  catalog self = ODict.empty ->
  source_ok file ->
  snd (load_document store file self) = None
  /\ catalog (fst (load_document store file self)) = catalog_of key file.
Proof.
  intros Hstore Hempty Hok. destruct file as [[e|es]|]; cbn in Hok |- *.
  - contradiction.
  - rewrite <- Hempty. now apply load_entries_ok.
  - now split.
Qed.

Lemma load_document_bad {A} (store : A -> KnowledgeBase -> KnowledgeBase) file self :
  ~ source_ok file ->
  exists e, snd (load_document store file self) = Some e.
Proof.
  intros Hbad. destruct file as [[e|es]|]; cbn in Hbad |- *.
  - now exists e.
  - now apply load_entries_bad.
  - exfalso. now apply Hbad.
Qed.

(** The state in which the four loaders leave the object, one after the
    other, when none of them has raised so far. *)
Lemma load_symptoms_run dir self :
  conditions (fst (_load_symptoms dir self)) = conditions self
  /\ treatments (fst (_load_symptoms dir self)) = treatments self
  /\ pet_specific_rules (fst (_load_symptoms dir self)) = pet_specific_rules self
  /\ (symptoms self = ODict.empty -> source_ok (symptoms_json dir) ->
      snd (_load_symptoms dir self) = None
      /\ symptoms (fst (_load_symptoms dir self))
         = catalog_of symptom_id (symptoms_json dir))
  /\ (~ source_ok (symptoms_json dir) ->
      exists e, snd (_load_symptoms dir self) = Some e).
Proof.
  unfold _load_symptoms. repeat split.
  - now apply load_document_frame.
  - now apply load_document_frame.
  - now apply load_document_frame.
  - now apply (load_document_ok store_symptom symptom_id symptoms).
  - now apply (load_document_ok store_symptom symptom_id symptoms).
  - now apply load_document_bad.
Qed.

Lemma load_conditions_run dir self :
  symptoms (fst (_load_conditions dir self)) = symptoms self
  /\ treatments (fst (_load_conditions dir self)) = treatments self
  /\ pet_specific_rules (fst (_load_conditions dir self)) = pet_specific_rules self
  /\ (conditions self = ODict.empty -> source_ok (conditions_json dir) ->
      snd (_load_conditions dir self) = None
      /\ conditions (fst (_load_conditions dir self))
         = catalog_of id (conditions_json dir))
  /\ (~ source_ok (conditions_json dir) ->
      exists e, snd (_load_conditions dir self) = Some e).
Proof.
  unfold _load_conditions. repeat split.
  - now apply load_document_frame.
  - now apply load_document_frame.
  - now apply load_document_frame.
  - now apply (load_document_ok store_condition id conditions).
  - now apply (load_document_ok store_condition id conditions).
  - now apply load_document_bad.
Qed.

Lemma load_treatments_run dir self :
  symptoms (fst (_load_treatments dir self)) = symptoms self
  /\ conditions (fst (_load_treatments dir self)) = conditions self
  /\ pet_specific_rules (fst (_load_treatments dir self)) = pet_specific_rules self
  /\ (treatments self = ODict.empty -> source_ok (treatments_json dir) ->
      snd (_load_treatments dir self) = None
      /\ treatments (fst (_load_treatments dir self))
         = catalog_of treatment_id (treatments_json dir))
  /\ (~ source_ok (treatments_json dir) ->
      exists e, snd (_load_treatments dir self) = Some e).
Proof.
  unfold _load_treatments. repeat split.
  - now apply load_document_frame.
  - now apply load_document_frame.
  - now apply load_document_frame.
  - now apply (load_document_ok store_treatment treatment_id treatments).
  - now apply (load_document_ok store_treatment treatment_id treatments).
  - now apply load_document_bad.
Qed.

Lemma load_pet_rules_run dir self :
  symptoms (fst (_load_pet_rules dir self)) = symptoms self
  /\ conditions (fst (_load_pet_rules dir self)) = conditions self
  /\ treatments (fst (_load_pet_rules dir self)) = treatments self
  /\ (pet_specific_rules self = no_pet_rules -> rules_ok (rules_json dir) ->
      snd (_load_pet_rules dir self) = None
      /\ pet_specific_rules (fst (_load_pet_rules dir self)) = rules_of (rules_json dir))
  /\ (~ rules_ok (rules_json dir) ->
      pet_specific_rules (fst (_load_pet_rules dir self)) = pet_specific_rules self
      /\ exists e, snd (_load_pet_rules dir self) = Some e).
Proof.
  unfold _load_pet_rules, rules_ok, rules_of.
  destruct (rules_json dir) as [[e|rules]|]; cbn; repeat split; try tauto.
  now exists e.
Qed.

End LoadingFacts.

(** C7, as stated, fails: with an unreadable [symptoms.json], the valid
    [conditions.json] next to it is not loaded. *)
Lemma load_knowledge_skips_later_sources :
  ~ Loading.source_ok (Loading.symptoms_json Sample.broken_symptoms_dir)
  /\ (exists document,
        Loading.conditions_json Sample.broken_symptoms_dir = Some document
        /\ Loading.valid document)
  /\ Loading.catalog_of id (Loading.conditions_json Sample.broken_symptoms_dir)
     = [("kennel_cough", Sample.kennel_cough)]
  /\ conditions (fst (Loading.init Sample.broken_symptoms_dir)) = []
  /\ pet_specific_rules (fst (Loading.init Sample.broken_symptoms_dir))
     = Loading.no_pet_rules
  /\ snd (Loading.init Sample.broken_symptoms_dir)
     = ["Error loading knowledge base: Expecting value"].
Proof.
  split; [intros H; exact H |]. split.
  - eexists. split; [reflexivity |]. repeat constructor.
  - repeat split.
Qed.

(** C7 (amended). [load_knowledge] never raises.  When every source is
    missing or valid, nothing is printed and each catalog holds what its
    source yields, the empty catalog for a missing one.  When a source is
    present and invalid, one error line is printed, the sources before it
    in the order symptoms, conditions, treatments, rules are loaded, and
    the sources after it are left as [__init__] made them. *)
Theorem load_knowledge_outcome (dir : Loading.DataDir) :
  let kb := fst (Loading.init dir) in
  let printed := snd (Loading.init dir) in
  (Loading.source_ok (Loading.symptoms_json dir) ->
   Loading.source_ok (Loading.conditions_json dir) ->
   Loading.source_ok (Loading.treatments_json dir) ->
   Loading.rules_ok (Loading.rules_json dir) ->
   printed = []
   /\ symptoms kb = Loading.catalog_of symptom_id (Loading.symptoms_json dir)
   /\ conditions kb = Loading.catalog_of id (Loading.conditions_json dir)
   /\ treatments kb = Loading.catalog_of treatment_id (Loading.treatments_json dir)
   /\ pet_specific_rules kb = Loading.rules_of (Loading.rules_json dir))
  /\ (~ Loading.source_ok (Loading.symptoms_json dir) ->
      length printed = 1%nat
      /\ conditions kb = ODict.empty
      /\ treatments kb = ODict.empty
      /\ pet_specific_rules kb = Loading.no_pet_rules)
  /\ (Loading.source_ok (Loading.symptoms_json dir) ->
      ~ Loading.source_ok (Loading.conditions_json dir) ->
      length printed = 1%nat
      /\ symptoms kb = Loading.catalog_of symptom_id (Loading.symptoms_json dir)
      /\ treatments kb = ODict.empty
      /\ pet_specific_rules kb = Loading.no_pet_rules)
  /\ (Loading.source_ok (Loading.symptoms_json dir) ->
      Loading.source_ok (Loading.conditions_json dir) ->
      ~ Loading.source_ok (Loading.treatments_json dir) ->
      length printed = 1%nat
      /\ symptoms kb = Loading.catalog_of symptom_id (Loading.symptoms_json dir)
      /\ conditions kb = Loading.catalog_of id (Loading.conditions_json dir)
      /\ pet_specific_rules kb = Loading.no_pet_rules)
  /\ (Loading.source_ok (Loading.symptoms_json dir) ->
      Loading.source_ok (Loading.conditions_json dir) ->
      Loading.source_ok (Loading.treatments_json dir) ->
      ~ Loading.rules_ok (Loading.rules_json dir) ->
      length printed = 1%nat
      /\ symptoms kb = Loading.catalog_of symptom_id (Loading.symptoms_json dir)
      /\ conditions kb = Loading.catalog_of id (Loading.conditions_json dir)
      /\ treatments kb = Loading.catalog_of treatment_id (Loading.treatments_json dir)
      /\ pet_specific_rules kb = Loading.no_pet_rules).
Proof.
  cbv zeta. unfold Loading.init, Loading.load_knowledge, Loading.seq.
  pose proof (load_symptoms_run dir Loading.empty_kb) as (Sc & St & Sr & Sok & Sbad).
  destruct (Loading._load_symptoms dir Loading.empty_kb) as [kb1 r1].
  cbn [fst snd Loading.empty_kb symptoms conditions treatments pet_specific_rules] in *.
  pose proof (load_conditions_run dir kb1) as (Cs & Ct & Cr & Cok & Cbad).
  pose proof (load_treatments_run dir (fst (Loading._load_conditions dir kb1)))
    as (Ts & Tc & Tr & Tok & Tbad).
  pose proof (load_pet_rules_run dir
                (fst (Loading._load_treatments dir
                        (fst (Loading._load_conditions dir kb1)))))
    as (Rs & Rc & Rt & Rok & Rbad).
  destruct (Loading._load_conditions dir kb1) as [kb2 r2].
  cbn [fst snd] in *.
  destruct (Loading._load_treatments dir kb2) as [kb3 r3].
  cbn [fst snd] in *.
  destruct (Loading._load_pet_rules dir kb3) as [kb4 r4].
  cbn [fst snd] in *.
  split; [| split; [| split; [| split]]].
  - intros Hs Hc Ht Hr.
    destruct (Sok eq_refl Hs) as [-> Es].
    destruct (Cok Sc Hc) as [-> Ec].
    destruct (Tok (eq_trans Ct St) Ht) as [-> Et].
    destruct (Rok (eq_trans Tr (eq_trans Cr Sr)) Hr) as [-> Er].
    cbn [fst snd]. repeat split; try reflexivity; congruence.
  - intros Hs. destruct (Sbad Hs) as [e ->]. cbn [fst snd].
    repeat split; try reflexivity; congruence.
  - intros Hs Hc.
    destruct (Sok eq_refl Hs) as [-> Es].
    destruct (Cbad Hc) as [e ->]. cbn [fst snd].
    repeat split; try reflexivity; congruence.
  - intros Hs Hc Ht.
    destruct (Sok eq_refl Hs) as [-> Es].
    destruct (Cok Sc Hc) as [-> Ec].
    destruct (Tbad Ht) as [e ->]. cbn [fst snd].
    repeat split; try reflexivity; congruence.
  - intros Hs Hc Ht Hr.
    destruct (Sok eq_refl Hs) as [-> Es].
    destruct (Cok Sc Hc) as [-> Ec].
    destruct (Tok (eq_trans Ct St) Ht) as [-> Et].
    destruct (Rbad Hr) as [Er [e ->]]. cbn [fst snd].
    repeat split; try reflexivity; congruence.
Qed.

Lemma load_knowledge_outcome_witness :
  length (snd (Loading.init Sample.broken_conditions_dir)) = 1%nat
  /\ symptoms (fst (Loading.init Sample.broken_conditions_dir)) = ODict.empty
  /\ treatments (fst (Loading.init Sample.broken_conditions_dir)) = ODict.empty
  /\ pet_specific_rules (fst (Loading.init Sample.broken_conditions_dir))
     = Loading.no_pet_rules.
Proof.
  apply (proj1 (proj2 (proj2 (load_knowledge_outcome Sample.broken_conditions_dir)))).
  - exact I.
  - intros H. cbn in H. apply Forall_cons in H as [_ H].
    apply Forall_cons in H as [[] _].
Defined.

(* ================================================================== *)
(** * Age categories and pet notes *)
(* ================================================================== *)

From Stdlib Require Import Lqa.

Lemma Qltb_false_iff a b : Qltb a b = false <-> b <= a.
Proof.
  unfold Qltb. rewrite negb_false_iff. apply Qle_bool_iff.
Qed.

Lemma senior_not_young (the_pet : Pet) :
  is_senior the_pet = true -> Qltb (age the_pet) 1 = true -> False.
Proof.
  intros Hs Hy. apply Qltb_iff in Hy.
  unfold is_senior, get_age_category in Hs.
  destruct (String.eqb (lower (species the_pet)) "dog").
  - destruct (Qltb (age the_pet) (1 # 2)); [discriminate |].
    destruct (Qltb (age the_pet) 7) eqn:E; [discriminate |].
    apply Qltb_false_iff in E. lra.
  - destruct (String.eqb (lower (species the_pet)) "cat"); [| discriminate].
    destruct (Qltb (age the_pet) (1 # 2)); [discriminate |].
    destruct (Qltb (age the_pet) 10) eqn:E; [discriminate |].
    apply Qltb_false_iff in E. lra.
Qed.

(** X2. The notes are a selection of the four fixed texts in their fixed
    order, each present exactly under its condition; the senior note and
    the young-pet note never appear together, so there are at most three
    notes, and the reported symptoms play no part. *)
Theorem pet_specific_notes_spec (the_pet : Pet) (symptoms : list string) :
  let notes := _generate_pet_specific_notes the_pet symptoms in
  sublist notes [senior_note; young_note; history_note; medication_note]
  /\ (In senior_note notes <-> is_senior the_pet = true)
  /\ (In young_note notes <-> age the_pet < 1)
  /\ (In history_note notes <-> medical_history the_pet <> [])
  /\ (In medication_note notes <-> current_medications the_pet <> [])
  /\ ~ (In senior_note notes /\ In young_note notes)
  /\ (length notes <= 3)%nat
  /\ (forall symptoms', _generate_pet_specific_notes the_pet symptoms' = notes).
Proof.
  cbv zeta. unfold _generate_pet_specific_notes.
  pose proof (senior_not_young the_pet) as Hexcl.
  rewrite <- Qltb_iff, <- !truthy_true_iff.
  destruct (is_senior the_pet), (Qltb (age the_pet) 1);
    try (exfalso; now apply Hexcl);
    destruct (truthy (medical_history the_pet)),
             (truthy (current_medications the_pet));
    cbn [app];
    (split; [unfold senior_note, young_note, history_note, medication_note;
             repeat constructor |]);
    unfold senior_note, young_note, history_note, medication_note;
    cbn [In length];
    repeat split; unfold not; intros; try discriminate; try lia; auto;
    repeat match goal with
           | H : _ \/ _ |- _ => destruct H
           | H : _ /\ _ |- _ => destruct H
           | H : False |- _ => destruct H
           end;
    try discriminate; auto.
Qed.

(* ================================================================== *)
(** * Scores *)
(* ================================================================== *)

Lemma calculate_confidence_range C S :
  0 <= calculate_confidence C S /\ calculate_confidence C S <= 1.
Proof.
  destruct (Nat.eq_dec (total_possible C) 0%nat) as [Hz | Hne].
  - unfold calculate_confidence. fold (total_possible C). rewrite Hz. cbn.
    split; lra.
  - rewrite calculate_confidence_unfold, py_min_Qmin by assumption. split.
    + apply Q.min_glb; [apply ratio_nonneg | lra].
    + apply Q.le_min_r.
Qed.

Lemma py_min_cases a b :
  (a <= b /\ py_min a b = a) \/ (b < a /\ py_min a b = b).
Proof.
  unfold py_min. destruct (Qltb b a) eqn:E.
  - right. split; [now apply Qltb_iff | reflexivity].
  - left. split; [now apply Qltb_false_iff | reflexivity].
Qed.

(* ================================================================== *)
(** * Exclusion rules, continued *)
(* ================================================================== *)

Lemma apply_exclusion_rules_filter conditions symptoms the_pet :
  apply_exclusion_rules conditions symptoms the_pet
  = List.filter (fun condition => negb (excluded condition the_pet)) conditions.
Proof.
  unfold apply_exclusion_rules.
  now rewrite (append_if_loop (fun condition => negb (excluded condition the_pet))).
Qed.

Lemma filter_idempotent {A} (p : A -> bool) (l : list A) :
  List.filter p (List.filter p l) = List.filter p l.
Proof.
  induction l as [|x l IH]; [reflexivity |]. simpl.
  destruct (p x) eqn:E; simpl; rewrite ?E, IH; reflexivity.
Qed.

Lemma filter_all {A} (p : A -> bool) (l : list A) :
  (forall x, In x l -> p x = true) -> List.filter p l = l.
Proof.
  induction l as [|x l IH]; intros H; [reflexivity |]. simpl.
  rewrite (H x) by now left. f_equal. apply IH. intros y Hy. apply H. now right.
Qed.

(** X4. Filtering twice removes nothing more, the reported symptoms play
    no part, and for a pet between one and ten years old whose species is
    none of dog, cat, bird and rabbit every candidate is kept, whatever its
    id. *)
Theorem apply_exclusion_rules_fixpoint conditions symptoms symptoms' the_pet :
  apply_exclusion_rules (apply_exclusion_rules conditions symptoms the_pet)
                        symptoms' the_pet
  = apply_exclusion_rules conditions symptoms the_pet
  /\ apply_exclusion_rules conditions symptoms' the_pet
     = apply_exclusion_rules conditions symptoms the_pet
  /\ (1 <= age the_pet -> age the_pet <= 10 ->
      ~ In (lower (species the_pet)) ["dog"; "cat"; "bird"; "rabbit"] ->
      apply_exclusion_rules conditions symptoms the_pet = conditions).
Proof.
  rewrite !apply_exclusion_rules_filter. split; [apply filter_idempotent |].
  split; [reflexivity |].
  intros Hlo Hhi Hsp. apply filter_all. intros c _.
  apply negb_true_iff. destruct (excluded c the_pet) eqn:E; [| reflexivity].
  exfalso. apply excluded_iff in E.
  destruct E as [[Ha _] | [[Ha _] | [[_ Hin] | [_ Hin]]]].
  - lra.
  - lra.
  - apply Hsp. cbn [In] in *. tauto.
  - apply Hsp. cbn [In] in *. tauto.
Qed.

Lemma apply_exclusion_rules_fixpoint_witness :
  apply_exclusion_rules [Clinic.feline_only_flu; Sample.bronchitis] []
                        Clinic.hamster
  = [Clinic.feline_only_flu; Sample.bronchitis].
Proof.
  apply (proj2 (proj2 (apply_exclusion_rules_fixpoint
                         [Clinic.feline_only_flu; Sample.bronchitis] [] []
                         Clinic.hamster))).
  - vm_compute. discriminate.
  - vm_compute. discriminate.
  - vm_compute. intros [H | [H | [H | [H | []]]]]; discriminate.
Defined.

(* ================================================================== *)
(** * The emergency check on concatenated reports *)
(* ================================================================== *)

Lemma truthy_app {A} (l l' : list A) : truthy (l ++ l') = truthy l || truthy l'.
Proof. now destruct l. Qed.

(** X5. The emergency check composes over concatenation: the alerts of a
    report followed by another are the alerts of the first followed by
    those of the second, and the flag is the disjunction of the two flags,
    so no added symptom clears an emergency.  There are at most as many
    alerts as reported symptoms, none for the empty report, and the pet
    plays no part. *)
Theorem check_emergency_conditions_app (S T : list string) (the_pet pet' : Pet) :
  snd (check_emergency_conditions (S ++ T) the_pet)
    = snd (check_emergency_conditions S the_pet)
      ++ snd (check_emergency_conditions T the_pet)
  /\ fst (check_emergency_conditions (S ++ T) the_pet)
     = fst (check_emergency_conditions S the_pet)
       || fst (check_emergency_conditions T the_pet)
  /\ (length (snd (check_emergency_conditions S the_pet)) <= length S)%nat
  /\ check_emergency_conditions [] the_pet = (false, [])
  /\ check_emergency_conditions S pet' = check_emergency_conditions S the_pet.
Proof.
  rewrite !check_emergency_conditions_eq. cbn [fst snd].
  rewrite List.filter_app, map_app, truthy_app.
  repeat split.
  rewrite length_map. apply filter_length_le.
Qed.

(* ================================================================== *)
(** * What a returned record is *)
(* ================================================================== *)

Lemma In_take {A} (x : A) (n : nat) (l : list A) : In x (take n l) -> In x l.
Proof.
  revert n. induction l as [|y l IH]; intros [|n]; simpl; try tauto.
  intros [-> | H]; [now left | right; eauto].
Qed.

Lemma diagnose_cases kb session :
  (emergency (diagnose kb session) = true
   /\ result_conditions (diagnose kb session) = [])
  \/ emergency (diagnose kb session) = false.
Proof.
  unfold diagnose. destruct (check_emergency_conditions _ _) as [[|] alerts].
  - left. now split.
  - right. reflexivity.
Qed.

Lemma probable_conditions_origin kb session s :
  In s (List.filter meets_threshold
          (sort_desc confidence (condition_scores kb session))) ->
  exists condition,
    s = score_of (apply_pet_specific_rules kb (pet session)
                    (reported_symptoms session))
                 (reported_symptoms session) condition
    /\ In condition (ODict.values (conditions kb))
    /\ qualifies (reported_symptoms session) condition = true
    /\ excluded condition (pet session) = false
    /\ confidence_threshold condition <= confidence s.
Proof.
  intros Hin. apply filter_In in Hin as [Hin Hthr].
  apply (Permutation_in _ (sort_desc_perm confidence _)) in Hin.
  rewrite condition_scores_map in Hin. apply in_map_iff in Hin as (c & <- & Hc).
  rewrite apply_exclusion_rules_filter in Hc. apply filter_In in Hc as [Hc Hex].
  rewrite get_conditions_for_symptoms_filter in Hc. apply filter_In in Hc as [Hc Hq].
  exists c. repeat split; try assumption.
  - now apply negb_true_iff.
  - unfold meets_threshold in Hthr. now apply Qle_bool_iff in Hthr.
Qed.

Lemma returned_record_origin kb session s :
  In s (result_conditions (diagnose kb session)) ->
  In s (List.filter meets_threshold
          (sort_desc confidence (condition_scores kb session))).
Proof.
  destruct (diagnose_cases kb session) as [[_ ->] | Hne]; [intros [] |].
  rewrite (diagnose_not_emergency _ _ Hne). cbn [result_conditions].
  apply In_take.
Qed.

(** X6. [diagnose] returns at most three records, and every returned record
    is the score of a condition of the catalog all of whose required
    symptoms are reported, none of whose exclusion symptoms is reported and
    which no exclusion rule removes for the pet; its confidence is at least
    the threshold of its condition and at most one. *)
Theorem diagnose_returned_records kb session :
  (length (result_conditions (diagnose kb session)) <= 3)%nat
  /\ forall s,
       In s (result_conditions (diagnose kb session)) ->
       In (score_condition s) (ODict.values (conditions kb))
       /\ (forall r, In r (required_symptoms (score_condition s)) ->
                     In r (reported_symptoms session))
       /\ (forall e, In e (exclusion_symptoms (score_condition s)) ->
                     ~ In e (reported_symptoms session))
       /\ ~ removal_reason (pet session) (score_condition s)
       /\ s = score_of (apply_pet_specific_rules kb (pet session)
                          (reported_symptoms session))
                       (reported_symptoms session) (score_condition s)
       /\ confidence_threshold (score_condition s) <= confidence s
       /\ confidence s <= 1.
Proof.
  split.
  - destruct (diagnose_cases kb session) as [[_ ->] | Hne]; [simpl; lia |].
    rewrite (diagnose_not_emergency _ _ Hne). cbn [result_conditions].
    apply firstn_le_length.
  - intros s Hin. apply returned_record_origin in Hin.
    apply probable_conditions_origin in Hin as (c & -> & Hc & Hq & Hex & Hthr).
    apply qualifies_iff in Hq as [Hreq Hexcl].
    cbn [score_of score_condition] in *.
    repeat split; try assumption.
    + rewrite <- excluded_iff. congruence.
    + unfold score_of. cbn [confidence].
      destruct (py_min_cases
                  (calculate_confidence c (reported_symptoms session)
                   * default 1 (ODict.get (id c)
                        (risk_multipliers
                           (apply_pet_specific_rules kb (pet session)
                              (reported_symptoms session))))) 1)
        as [[Hle ->] | [_ ->]]; [assumption | lra].
Qed.

Lemma diagnose_returned_records_witness :
  In Sample.tracheitis (ODict.values (conditions Sample.ranking_kb))
  /\ confidence_threshold Sample.tracheitis
     <= confidence (score_of (apply_pet_specific_rules Sample.ranking_kb
                                (Sample.rex 3) ["cough"])
                             ["cough"] Sample.tracheitis)
  /\ confidence (score_of (apply_pet_specific_rules Sample.ranking_kb
                             (Sample.rex 3) ["cough"])
                          ["cough"] Sample.tracheitis) <= 1.
Proof.
  destruct (proj2 (diagnose_returned_records Sample.ranking_kb
                     (Sample.session 3 ["cough"]))
                  (score_of (apply_pet_specific_rules Sample.ranking_kb
                               (Sample.rex 3) ["cough"])
                            ["cough"] Sample.tracheitis)
                  (or_introl eq_refl))
    as (Hcat & _ & _ & _ & _ & Hthr & Hle).
  split; [exact Hcat |]. split; [exact Hthr | exact Hle].
Defined.

(* ================================================================== *)
(** * Recommendations *)
(* ================================================================== *)

Lemma find_first_split {A} (p : A -> bool) (l : list A) :
  match List.filter p l with
  | [] => forall x, In x l -> p x = false
  | y :: _ =>
      p y = true
      /\ exists before after,
           l = before ++ y :: after /\ forall x, In x before -> p x = false
  end.
Proof.
  induction l as [|x l IH]; [intros x [] |]. simpl.
  destruct (p x) eqn:E.
  - split; [assumption |]. exists [], l. split; [reflexivity | intros y []].
  - destruct (List.filter p l) as [|y rest].
    + intros z [<- | Hz]; [assumption | now apply IH].
    + destruct IH as (Hy & before & after & -> & Hbefore).
      split; [assumption |]. exists (x :: before), after.
      split; [reflexivity |]. intros z [<- | Hz]; [assumption | now apply Hbefore].
Qed.

(** X7. For a non-empty list of records the recommendation names the first
    record, whatever the pet and the other records.  Its treatment part is
    taken from the first treatment of the catalog, in catalog order, whose
    [condition_id] is the id of that record's condition, and is absent
    exactly when no treatment of the catalog has that [condition_id]; an
    empty list gives the generic advice. *)
Theorem generate_recommendations_spec kb (top : ScoreRecord)
    (others : list ScoreRecord) (the_pet : Pet) :
  _generate_recommendations kb [] the_pet = generic_advice
  /\ exists chosen,
       _generate_recommendations kb (top :: others) the_pet
       = DiagnosisAdvice (name (score_condition top)) (confidence top)
                         (severity (score_condition top))
                         (advice_of <$> chosen)
       /\ (chosen = None <->
             forall t, In t (ODict.values (treatments kb)) ->
                       condition_id t <> id (score_condition top))
       /\ (forall t, chosen = Some t ->
             condition_id t = id (score_condition top)
             /\ exists before after,
                  ODict.values (treatments kb) = before ++ t :: after
                  /\ forall t', In t' before ->
                                condition_id t' <> id (score_condition top)).
Proof.
  split; [reflexivity |].
  unfold _generate_recommendations.
  pose proof (find_first_split
                (fun t => String.eqb (condition_id t) (id (score_condition top)))
                (ODict.values (treatments kb))) as Hfirst.
  destruct (List.filter _ (ODict.values (treatments kb))) as [|t rest].
  - exists None. split; [reflexivity |]. split.
    + split; [| reflexivity]. intros _ t Ht.
      apply String.eqb_neq. now apply Hfirst.
    + discriminate.
  - destruct Hfirst as (Ht & before & after & Hsplit & Hbefore).
    apply String.eqb_eq in Ht.
    exists (Some t). split; [reflexivity |]. split.
    + split; [discriminate |]. intros Hnone. exfalso.
      apply (Hnone t); [| assumption].
      rewrite Hsplit. apply in_or_app. right. now left.
    + intros t' [= <-]. split; [assumption |].
      exists before, after. split; [assumption |].
      intros t' Ht'. apply String.eqb_neq. now apply Hbefore.
Qed.


(* ================================================================== *)
(** * Reports as sets, and the empty report *)
(* ================================================================== *)

Lemma str_in_same S S' x :
  same_symptoms S S' -> str_in x S = str_in x S'.
Proof.
  intros Hsame. destruct (str_in x S) eqn:E, (str_in x S') eqn:E';
    try reflexivity.
  - apply str_in_In, Hsame, str_in_In in E. congruence.
  - apply str_in_In, Hsame, str_in_In in E'. congruence.
Qed.

Lemma forallb_ext_all {A} (f g : A -> bool) (l : list A) :
  (forall a, f a = g a) -> forallb f l = forallb g l.
Proof. intros H. induction l as [|x l IH]; simpl; [| rewrite H, IH]; reflexivity. Qed.

Lemma existsb_ext_all {A} (f g : A -> bool) (l : list A) :
  (forall a, f a = g a) -> existsb f l = existsb g l.
Proof. intros H. induction l as [|x l IH]; simpl; [| rewrite H, IH]; reflexivity. Qed.

Lemma qualifies_same S S' C :
  same_symptoms S S' -> qualifies S C = qualifies S' C.
Proof.
  intros Hsame. unfold qualifies, required_match, exclusion_conflict.
  rewrite (forallb_ext_all _ (fun r => str_in r S'))
    by (intros; now apply str_in_same).
  rewrite (existsb_ext_all _ (fun e => str_in e S'))
    by (intros; now apply str_in_same).
  reflexivity.
Qed.

Lemma get_conditions_for_symptoms_same kb S S' :
  same_symptoms S S' ->
  get_conditions_for_symptoms kb S = get_conditions_for_symptoms kb S'.
Proof.
  intros Hsame. rewrite !get_conditions_for_symptoms_filter.
  apply filter_ext. intros C. now apply qualifies_same.
Qed.

Lemma calculate_confidence_same C S S' :
  same_symptoms S S' -> calculate_confidence C S = calculate_confidence C S'.
Proof.
  intros Hsame. unfold calculate_confidence.
  rewrite !(filter_ext (fun symptom => str_in symptom S)
                       (fun symptom => str_in symptom S'))
    by (intros; now apply str_in_same).
  reflexivity.
Qed.

Lemma condition_scores_same kb session S' :
  same_symptoms (reported_symptoms session) S' ->
  condition_scores kb (with_reported session S') = condition_scores kb session.
Proof.
  intros Hsame. rewrite !condition_scores_map. cbn [with_reported pet reported_symptoms].
  rewrite <- (get_conditions_for_symptoms_same kb _ _ Hsame).
  rewrite !apply_exclusion_rules_filter.
  apply map_ext. intros C. unfold score_of.
  now rewrite <- (calculate_confidence_same C _ _ Hsame).
Qed.

Lemma emergency_flag_same S S' :
  same_symptoms S S' ->
  truthy (map emergency_alert (List.filter in_emergency_table S))
  = truthy (map emergency_alert (List.filter in_emergency_table S')).
Proof.
  intros Hsame.
  assert (forall T T', same_symptoms T T' ->
            truthy (map emergency_alert (List.filter in_emergency_table T)) = true ->
            truthy (map emergency_alert (List.filter in_emergency_table T')) = true)
    as Hdir.
  { intros T T' HT. rewrite !truthy_true_iff, !filtered_map_nonempty.
    intros (x & Hx & Hp). exists x. split; [now apply HT | assumption]. }
  destruct (truthy (map emergency_alert (List.filter in_emergency_table S))) eqn:E,
           (truthy (map emergency_alert (List.filter in_emergency_table S'))) eqn:E';
    try reflexivity.
  - apply (Hdir _ _ Hsame) in E. congruence.
  - assert (same_symptoms S' S) as Hsym by (intros x; symmetry; apply Hsame).
    apply (Hdir _ _ Hsym) in E'. congruence.
Qed.

(** X9. Candidate retrieval and confidence depend only on which symptoms
    are reported, not on their order or repetition; so does the emergency
    flag, and a non-emergency diagnosis as a whole is the same for two
    reports that mention the same symptoms. *)
Theorem diagnose_same_symptoms kb session (S' : list string) :
  same_symptoms (reported_symptoms session) S' ->
  get_conditions_for_symptoms kb S'
    = get_conditions_for_symptoms kb (reported_symptoms session)
  /\ (forall C, calculate_confidence C S'
                = calculate_confidence C (reported_symptoms session))
  /\ emergency (diagnose kb (with_reported session S'))
     = emergency (diagnose kb session)
  /\ (emergency (diagnose kb session) = false ->
      diagnose kb (with_reported session S') = diagnose kb session).
Proof.
  intros Hsame.
  split; [symmetry; now apply get_conditions_for_symptoms_same |].
  split; [intros C; symmetry; now apply calculate_confidence_same |].
  unfold diagnose. rewrite (condition_scores_same kb session S' Hsame).
  rewrite !check_emergency_conditions_eq.
  cbn [with_reported pet reported_symptoms session_id timestamp].
  rewrite <- (emergency_flag_same _ _ Hsame).
  destruct (truthy _); cbn [emergency].
  - split; [reflexivity | discriminate].
  - split; [reflexivity |]. intros _. reflexivity.
Qed.

Lemma diagnose_same_symptoms_witness :
  diagnose Sample.ranking_kb
           (with_reported (Sample.session 3 ["cough"; "fever"])
                          ["fever"; "cough"; "fever"])
  = diagnose Sample.ranking_kb (Sample.session 3 ["cough"; "fever"]).
Proof.
  assert (same_symptoms
            (reported_symptoms (Sample.session 3 ["cough"; "fever"]))
            ["fever"; "cough"; "fever"]) as Hsame.
  { intros x. cbn. tauto. }
  apply (proj2 (proj2 (proj2
    (diagnose_same_symptoms Sample.ranking_kb
       (Sample.session 3 ["cough"; "fever"]) ["fever"; "cough"; "fever"] Hsame)))).
  reflexivity.
Defined.

Lemma count_present_nil xs : count_present xs [] = 0%nat.
Proof. unfold count_present. induction xs; simpl; auto. Qed.

Lemma calculate_confidence_nil C : calculate_confidence C [] == 0.
Proof.
  destruct (Nat.eq_dec (total_possible C) 0%nat) as [Hz | Hne].
  - unfold calculate_confidence. fold (total_possible C). rewrite Hz. reflexivity.
  - rewrite calculate_confidence_unfold, py_min_Qmin by assumption.
    unfold match_ratio. rewrite !count_present_nil.
    set (d := Pos.of_nat _). change (Z.of_nat (2 * 0 + 1 * 0)) with 0%Z.
    transitivity (0 # d).
    + apply Q.min_l. unfold Qle. cbn. lia.
    + unfold Qeq. cbn. lia.
Qed.

(** X10. With nothing reported, [diagnose] is never an emergency, and every
    condition it returns has no required symptom, base and adjusted
    confidence zero and a threshold that is not positive. *)
Theorem diagnose_nothing_reported kb session :
  reported_symptoms session = [] ->
  emergency (diagnose kb session) = false
  /\ forall s,
       In s (result_conditions (diagnose kb session)) ->
       required_symptoms (score_condition s) = []
       /\ base_confidence s == 0
       /\ confidence s == 0
       /\ confidence_threshold (score_condition s) <= 0.
Proof.
  intros Hnil.
  assert (emergency (diagnose kb session) = false) as Hne.
  { unfold diagnose. rewrite check_emergency_conditions_eq, Hnil. reflexivity. }
  split; [exact Hne |].
  intros s Hin. apply returned_record_origin in Hin.
  apply probable_conditions_origin in Hin as (c & -> & _ & Hq & _ & Hthr).
  rewrite Hnil in *. apply qualifies_iff in Hq as [Hreq _].
  assert (confidence
            (score_of (apply_pet_specific_rules kb (pet session) []) [] c) == 0)
    as Hzero.
  { unfold score_of. cbn [confidence].
    destruct (py_min_cases
                (calculate_confidence c []
                 * default 1 (ODict.get (id c)
                      (risk_multipliers (apply_pet_specific_rules kb (pet session) []))))
                1) as [[_ ->] | [Hlt _]].
    - rewrite calculate_confidence_nil. ring.
    - exfalso. rewrite calculate_confidence_nil in Hlt. lra. }
  cbn [score_of score_condition base_confidence] in *.
  split; [| split; [apply calculate_confidence_nil | split; [exact Hzero |]]].
  - destruct (required_symptoms c) as [|r rs]; [reflexivity |].
    destruct (Hreq r (or_introl eq_refl)).
  - rewrite <- Hzero. exact Hthr.
Qed.

Lemma diagnose_nothing_reported_witness :
  emergency (diagnose Sample.kb (Sample.session 8 [])) = false.
Proof.
  apply (proj1 (diagnose_nothing_reported Sample.kb (Sample.session 8 []) eq_refl)).
Defined.

(* ================================================================== *)
(** * The sorted order is determined *)
(* ================================================================== *)

Section SortUnique.
Context {A : Type} (key : A -> Q).





End SortUnique.



(* ================================================================== *)
(** * Symptoms by category *)
(* ================================================================== *)

Lemma odict_keys_set {V} (k : string) (v : V) (d : odict V) :
  ODict.keys (ODict.set k v d)
  = if ODict.mem k d then ODict.keys d else ODict.keys d ++ [k].
Proof.
  unfold ODict.mem. induction d as [|[k0 v0] d IH]; [reflexivity |].
  cbn [ODict.set ODict.get ODict.keys map fst].
  destruct (String.eqb_spec k k0) as [-> | Hne]; [reflexivity |].
  cbn [ODict.keys map fst]. fold (ODict.keys (ODict.set k v d)). rewrite IH.
  fold (ODict.keys d). now destruct (ODict.get k d).
Qed.

Lemma odict_mem_In {V} (k : string) (d : odict V) :
  ODict.mem k d = true <-> In k (ODict.keys d).
Proof.
  unfold ODict.mem. induction d as [|[k0 v0] d IH]; cbn; [split; [discriminate | tauto] |].
  destruct (String.eqb_spec k k0) as [-> | Hne].
  - split; auto.
  - rewrite IH. split; [auto | intros [H | H]; [congruence | assumption]].
Qed.

Lemma odict_set_wf {V} (k : string) (v : V) (d : odict V) :
  ODict.wf d -> ODict.wf (ODict.set k v d).
Proof.
  unfold ODict.wf. rewrite odict_keys_set. intros Hwf.
  destruct (ODict.mem k d) eqn:E; [assumption |].
  apply NoDup_ListNoDup. apply NoDup_ListNoDup in Hwf.
  apply List.NoDup_app; [assumption | repeat constructor; intros [] |].
  intros x Hx [<- | []].
  apply odict_mem_In in Hx. congruence.
Qed.

Lemma group_step_get d s c :
  ODict.get c (Routes.group_step d s)
  = if String.eqb c (symptom_category s)
    then Some (default [] (ODict.get c d) ++ [s])
    else ODict.get c d.
Proof.
  unfold Routes.group_step, ODict.mem.
  destruct (String.eqb_spec c (symptom_category s)) as [-> | Hne].
  - rewrite odict_get_set, String.eqb_refl.
    destruct (ODict.get (symptom_category s) d) eqn:E; cbn [negb].
    + now rewrite E.
    + now rewrite odict_get_set, String.eqb_refl.
  - rewrite odict_get_set.
    destruct (String.eqb_spec c (symptom_category s)); [contradiction |].
    destruct (ODict.get (symptom_category s) d); cbn [negb]; [reflexivity |].
    rewrite odict_get_set.
    now destruct (String.eqb_spec c (symptom_category s)).
Qed.

Lemma group_step_wf d s : ODict.wf d -> ODict.wf (Routes.group_step d s).
Proof.
  intros Hwf. unfold Routes.group_step.
  apply odict_set_wf. destruct (negb _); [now apply odict_set_wf | assumption].
Qed.

Lemma group_loop_get (l : list Symptom) d c :
  ODict.get c (fold_left Routes.group_step l d)
  = match List.filter (fun s => String.eqb (symptom_category s) c) l with
    | [] => ODict.get c d
    | group => Some (default [] (ODict.get c d) ++ group)
    end.
Proof.
  revert d. induction l as [|s l IH]; intros d; [reflexivity |].
  cbn [fold_left List.filter]. rewrite IH, group_step_get.
  rewrite (String.eqb_sym c).
  destruct (String.eqb (symptom_category s) c).
  - destruct (List.filter _ l); simpl; [reflexivity |].
    now rewrite <- app_assoc.
  - reflexivity.
Qed.

Lemma group_loop_wf (l : list Symptom) d :
  ODict.wf d -> ODict.wf (fold_left Routes.group_step l d).
Proof.
  revert d. induction l as [|s l IH]; intros d Hwf; [assumption |].
  cbn [fold_left]. apply IH. now apply group_step_wf.
Qed.

(** X12. The dictionary built by the symptoms page agrees with the category
    query of the knowledge base: under each category it holds exactly the
    list [get_symptoms_by_category] returns, in catalog order, and a
    category without symptoms is not a key, so no group is empty.  The
    query returns exactly the catalog symptoms of the category. *)
Theorem symptoms_by_category_spec kb (c : string) :
  ODict.get c (Routes.symptoms_by_category kb)
    = match get_symptoms_by_category kb c with
      | [] => None
      | group => Some group
      end
  /\ (forall group, ODict.get c (Routes.symptoms_by_category kb) = Some group ->
                    group <> [])
  /\ ODict.wf (Routes.symptoms_by_category kb)
  /\ (forall s, In s (get_symptoms_by_category kb c) <->
                In s (ODict.values (symptoms kb)) /\ symptom_category s = c).
Proof.
  unfold Routes.symptoms_by_category, get_symptoms_by_category.
  rewrite group_loop_get. cbn [ODict.get ODict.empty default app].
  split; [now destruct (List.filter _ _) |]. split; [| split].
  - destruct (List.filter _ _); [discriminate |]. intros group [= <-]. discriminate.
  - apply group_loop_wf. constructor.
  - intros s. rewrite filter_In, String.eqb_eq. reflexivity.
Qed.

(* ================================================================== *)
(** * Catalogs after loading *)
(* ================================================================== *)

Lemma odict_set_keyed {A} (key : A -> string) (x : A) (d : odict A) :
  keyed_by key d -> keyed_by key (ODict.set (key x) x d).
Proof.
  unfold keyed_by. induction d as [|[k0 v0] d IH]; intros Hd; cbn [ODict.set].
  - repeat constructor.
  - apply Forall_cons in Hd as [Hk Hd].
    destruct (String.eqb_spec (key x) k0) as [<- | Hne].
    + constructor; [reflexivity | assumption].
    + constructor; [assumption | now apply IH].
Qed.

Lemma odict_get_keyed {A} (key : A -> string) (k : string) (x : A) (d : odict A) :
  keyed_by key d -> ODict.get k d = Some x -> key x = k.
Proof.
  unfold keyed_by. induction d as [|[k0 v0] d IH]; intros Hd; cbn [ODict.get];
    [discriminate |].
  apply Forall_cons in Hd as [Hk Hd]. cbn in Hk.
  destruct (String.eqb_spec k k0) as [-> | Hne].
  - intros [= <-]. now symmetry.
  - now apply IH.
Qed.

Lemma keyed_keys {A} (key : A -> string) (d : odict A) :
  keyed_by key d -> map key (ODict.values d) = ODict.keys d.
Proof.
  unfold keyed_by, ODict.values, ODict.keys.
  induction d as [|[k0 v0] d IH]; intros Hd; [reflexivity |].
  apply Forall_cons in Hd as [Hk Hd]. cbn in *. rewrite IH by assumption.
  now rewrite Hk.
Qed.

Lemma load_entries_inv {A} (store : A -> KnowledgeBase -> KnowledgeBase)
    (P : KnowledgeBase -> Prop) :
  (forall x kb, P kb -> P (store x kb)) ->
  forall es self, P self -> P (fst (Loading.load_entries store es self)).
Proof.
  intros Hstore es. induction es as [|[e|x] es IH]; intros self HP;
    try assumption.
  cbn [Loading.load_entries]. unfold Loading.seq. apply IH. now apply Hstore.
Qed.

Lemma load_document_inv {A} (store : A -> KnowledgeBase -> KnowledgeBase)
    (P : KnowledgeBase -> Prop) file self :
  (forall x kb, P kb -> P (store x kb)) ->
  P self -> P (fst (Loading.load_document store file self)).
Proof.
  intros Hstore HP. destruct file as [[e|es]|]; try assumption.
  cbn [Loading.load_document]. now apply load_entries_inv.
Qed.

Lemma seq_inv (P : KnowledgeBase -> Prop) (first second : Loading.Loader) self :
  (forall kb, P kb -> P (fst (first kb))) ->
  (forall kb, P kb -> P (fst (second kb))) ->
  P self -> P (fst (Loading.seq first second self)).
Proof.
  intros H1 H2 HP. unfold Loading.seq.
  specialize (H1 self HP). destruct (first self) as [kb [e|]]; cbn [fst] in *.
  - assumption.
  - now apply H2.
Qed.

Lemma load_knowledge_sound dir self :
  catalogs_sound self -> catalogs_sound (fst (Loading.load_knowledge dir self)).
Proof.
  intros HP. unfold Loading.load_knowledge.
  assert (catalogs_sound
            (fst (Loading.seq (Loading._load_symptoms dir)
                    (Loading.seq (Loading._load_conditions dir)
                       (Loading.seq (Loading._load_treatments dir)
                          (Loading._load_pet_rules dir))) self))) as H.
  { unfold Loading._load_symptoms, Loading._load_conditions,
      Loading._load_treatments.
    apply seq_inv; [| | assumption].
    - intros kb Hkb. apply load_document_inv; [| assumption].
      intros x kb0 ((Hw & Hk) & Hc & Ht). repeat split; try tauto.
      + now apply odict_set_wf.
      + now apply odict_set_keyed.
    - intros kb Hkb. apply seq_inv; [| | assumption].
      + intros kb0 Hkb0. apply load_document_inv; [| assumption].
        intros x kb1 (Hs & (Hw & Hk) & Ht). repeat split; try tauto.
        * now apply odict_set_wf.
        * now apply odict_set_keyed.
      + intros kb0 Hkb0. apply seq_inv; [| | assumption].
        * intros kb1 Hkb1. apply load_document_inv; [| assumption].
          intros x kb2 (Hs & Hc & (Hw & Hk)). repeat split; try tauto.
          -- now apply odict_set_wf.
          -- now apply odict_set_keyed.
        * intros kb1 Hkb1. unfold Loading._load_pet_rules.
          destruct (Loading.rules_json dir) as [[e|rules]|]; assumption. }
  destruct (Loading.seq _ _ self) as [kb [e|]]; assumption.
Qed.

(** X13. Whatever the data directory holds, valid or not, each catalog of
    the knowledge base built by [__init__] has the id of the stored object
    as key: a lookup by id returns an object with that id, and no two
    objects of a catalog share an id. *)
Theorem init_catalogs_keyed_by_id (dir : Loading.DataDir) :
  let kb := fst (Loading.init dir) in
  (forall k s, ODict.get k (symptoms kb) = Some s -> symptom_id s = k)
  /\ (forall k c, ODict.get k (conditions kb) = Some c -> id c = k)
  /\ (forall k t, ODict.get k (treatments kb) = Some t -> treatment_id t = k)
  /\ NoDup (map symptom_id (ODict.values (symptoms kb)))
  /\ NoDup (map id (ODict.values (conditions kb)))
  /\ NoDup (map treatment_id (ODict.values (treatments kb))).
Proof.
  cbv zeta. unfold Loading.init.
  assert (catalogs_sound Loading.empty_kb) as H0.
  { repeat split; constructor. }
  pose proof (load_knowledge_sound dir _ H0) as ((Hsw & Hsk) & (Hcw & Hck) & (Htw & Htk)).
  repeat split.
  - intros k s. now apply odict_get_keyed.
  - intros k c. now apply odict_get_keyed.
  - intros k t. now apply odict_get_keyed.
  - now rewrite keyed_keys.
  - now rewrite keyed_keys.
  - now rewrite keyed_keys.
Qed.

Lemma find_snoc {A} (p : A -> bool) (l : list A) (x : A) :
  List.find p (l ++ [x])
  = match List.find p l with
    | Some y => Some y
    | None => if p x then Some x else None
    end.
Proof.
  induction l as [|y l IH]; cbn [app List.find]; [reflexivity |].
  now destruct (p y).
Qed.

Lemma stored_get {A} (key : A -> string) (k : string) (xs : list A) (d : odict A) :
  ODict.get k (stored key xs d)
  = match last_with_key key k xs with
    | Some x => Some x
    | None => ODict.get k d
    end.
Proof.
  unfold stored, last_with_key. revert d.
  induction xs as [|x xs IH]; intros d; [reflexivity |].
  cbn [fold_left rev]. rewrite IH, find_snoc, odict_get_set.
  rewrite (String.eqb_sym k).
  destruct (List.find _ (rev xs)); [reflexivity |].
  now destruct (String.eqb (key x) k).
Qed.

Lemma load_entries_stored {A} (store : A -> KnowledgeBase -> KnowledgeBase)
    (key : A -> string) (catalog : KnowledgeBase -> odict A) :
  (forall x kb, catalog (store x kb) = ODict.set (key x) x (catalog kb)) ->
  forall es self,
    snd (Loading.load_entries store es self) = first_error es
    /\ catalog (fst (Loading.load_entries store es self))
       = stored key (good_prefix es) (catalog self).
Proof.
  intros Hstore es. induction es as [|[e|x] es IH]; intros self.
  - now split.
  - now split.
  - cbn [Loading.load_entries good_prefix first_error]. unfold Loading.seq, stored.
    cbn [fold_left]. rewrite <- Hstore. apply IH.
Qed.

(** X14. Loading [conditions.json] stores the entries in order up to the
    first one that cannot be constructed and raises that entry's error;
    what was stored before stays stored.  A lookup by id then returns the
    last stored entry with that id, or what the catalog held before; the
    other catalogs and the rule table are not touched. *)
Theorem load_conditions_entries dir self (es : list (string + Condition)) :
  Loading.conditions_json dir = Some (Loading.Entries es) ->
  snd (Loading._load_conditions dir self) = first_error es
  /\ conditions (fst (Loading._load_conditions dir self))
     = stored id (good_prefix es) (conditions self)
  /\ (forall k,
        ODict.get k (conditions (fst (Loading._load_conditions dir self)))
        = match last_with_key id k (good_prefix es) with
          | Some c => Some c
          | None => ODict.get k (conditions self)
          end)
  /\ symptoms (fst (Loading._load_conditions dir self)) = symptoms self
  /\ treatments (fst (Loading._load_conditions dir self)) = treatments self
  /\ pet_specific_rules (fst (Loading._load_conditions dir self))
     = pet_specific_rules self.
Proof.
  intros Hfile.
  pose proof (load_conditions_run dir self) as (Hs & Ht & Hr & _).
  unfold Loading._load_conditions in *. rewrite Hfile in *.
  cbn [Loading.load_document] in *.
  destruct (load_entries_stored Loading.store_condition id conditions
              (fun x kb => eq_refl) es self) as [Herr Hcat].
  repeat split; try assumption.
  intros k. rewrite Hcat. apply stored_get.
Qed.

Lemma load_conditions_entries_witness :
  snd (Loading._load_conditions Clinic.partial_dir Loading.empty_kb)
    = Some "missing 1 required positional argument"
  /\ ODict.keys (conditions (fst (Loading._load_conditions Clinic.partial_dir
                                    Loading.empty_kb)))
     = ["bronchitis"; "tracheitis"]
  /\ ODict.get "bronchitis"
               (conditions (fst (Loading._load_conditions Clinic.partial_dir
                                   Loading.empty_kb)))
     = Some (Sample.condition "bronchitis" ["cough"; "fever"] [] [] (3 # 4)).
Proof.
  destruct (load_conditions_entries Clinic.partial_dir Loading.empty_kb
              Clinic.conditions_document eq_refl)
    as (Herr & Hcat & Hget & _).
  split; [exact Herr |]. split.
  - rewrite Hcat. reflexivity.
  - rewrite Hget. reflexivity.
Defined.

(* ================================================================== *)
(** * The letter case of the species *)
(* ================================================================== *)

Lemma lower_char_idempotent c : lower_char (lower_char c) = lower_char c.
Proof. destruct c as [[] [] [] [] [] [] [] []]; reflexivity. Qed.

Lemma lower_idempotent s : lower (lower s) = lower s.
Proof.
  induction s as [|c s IH]; [reflexivity |].
  cbn [lower]. now rewrite lower_char_idempotent, IH.
Qed.

Section SpeciesCase.
Variables (the_pet : Pet) (spelling : string).
Hypothesis Hsame : lower spelling = lower (species the_pet).

Lemma get_age_category_case :
  get_age_category (with_species the_pet spelling) = get_age_category the_pet.
Proof.
  unfold get_age_category. cbn [species age with_species]. now rewrite Hsame.
Qed.

Lemma excluded_case condition :
  excluded condition (with_species the_pet spelling) = excluded condition the_pet.
Proof.
  rewrite !excluded_orb. cbn [species age with_species]. now rewrite Hsame.
Qed.

Lemma apply_pet_specific_rules_case kb symptoms :
  apply_pet_specific_rules kb (with_species the_pet spelling) symptoms
  = apply_pet_specific_rules kb the_pet symptoms.
Proof.
  unfold apply_pet_specific_rules. rewrite get_age_category_case.
  cbn [species with_species]. now rewrite Hsame.
Qed.

Lemma generate_pet_specific_notes_case symptoms :
  _generate_pet_specific_notes (with_species the_pet spelling) symptoms
  = _generate_pet_specific_notes the_pet symptoms.
Proof.
  unfold _generate_pet_specific_notes, is_senior.
  rewrite get_age_category_case. reflexivity.
Qed.

Lemma condition_scores_case kb session :
  pet session = the_pet ->
  condition_scores kb (with_pet session (with_species the_pet spelling))
  = condition_scores kb session.
Proof.
  intros Hpet. rewrite !condition_scores_map.
  cbn [pet reported_symptoms with_pet]. rewrite Hpet.
  rewrite apply_pet_specific_rules_case, !apply_exclusion_rules_filter.
  f_equal. apply filter_ext. intros c. now rewrite excluded_case.
Qed.

Lemma diagnose_case kb session :
  pet session = the_pet ->
  diagnose kb (with_pet session (with_species the_pet spelling))
  = diagnose kb session.
Proof.
  intros Hpet. unfold diagnose.
  rewrite (condition_scores_case kb session Hpet).
  rewrite !check_emergency_conditions_eq.
  cbn [pet reported_symptoms session_id timestamp with_pet]. rewrite Hpet.
  now rewrite generate_pet_specific_notes_case.
Qed.

End SpeciesCase.

(* ================================================================== *)
(** * The explanation *)
(* ================================================================== *)

(** X16. The explanation of an emergency result and that of a result
    without conditions are fixed texts; otherwise the explanation is built
    from the first two returned records only, joined by a bar, so a third
    returned condition is never explained. *)
Theorem explain_reasoning_top_two
    (format_percent format_fixed : Q -> string) (r r' : DiagnosisResult) :
  (emergency r = true ->
   explain_reasoning format_percent format_fixed r
   = "Emergency condition detected based on critical symptoms requiring immediate attention.")
  /\ (emergency r = false -> result_conditions r = [] ->
      explain_reasoning format_percent format_fixed r
      = "No specific conditions identified. Symptoms may be minor or require additional information.")
  /\ (emergency r = false -> emergency r' = false ->
      take 2 (result_conditions r) = take 2 (result_conditions r') ->
      explain_reasoning format_percent format_fixed r
      = explain_reasoning format_percent format_fixed r')
  /\ (forall a b rest,
        emergency r = false -> result_conditions r = a :: b :: rest ->
        explain_reasoning format_percent format_fixed r
        = explain_one format_percent format_fixed a +:+ " | "
          +:+ explain_one format_percent format_fixed b).
Proof.
  unfold explain_reasoning. repeat split.
  - now intros ->.
  - now intros -> ->.
  - intros -> -> Htake.
    destruct (result_conditions r) as [|a [|b rest]],
             (result_conditions r') as [|a' [|b' rest']];
      try discriminate; try reflexivity; cbn [take] in *.
    + now injection Htake as ->.
    + now injection Htake as -> ->.
  - intros a b rest -> ->. reflexivity.
Qed.

Lemma explain_reasoning_top_two_witness :
  explain_reasoning (fun _ => "100.0%") (fun _ => "1.5")
    (diagnose Sample.ranking_kb (Sample.session 3 ["cough"]))
  = explain_reasoning (fun _ => "100.0%") (fun _ => "1.5")
      (NormalResult
         (take 2 (result_conditions
                    (diagnose Sample.ranking_kb (Sample.session 3 ["cough"]))))
         generic_advice [] [] "" "").
Proof.
  apply (proj1 (proj2 (proj2
    (explain_reasoning_top_two (fun _ => "100.0%") (fun _ => "1.5")
       (diagnose Sample.ranking_kb (Sample.session 3 ["cough"]))
       (NormalResult
          (take 2 (result_conditions
                     (diagnose Sample.ranking_kb (Sample.session 3 ["cough"]))))
          generic_advice [] [] "" ""))))); reflexivity.
Defined.

(* ================================================================== *)
(** * More reported symptoms, more confidence *)
(* ================================================================== *)





(* ================================================================== *)
(** * The order of doubles *)
(* ================================================================== *)

Section DoubleOrder.
Import Binary64.

Lemma lex3_le a b : lex3 a b <> Gt <-> lex_le a b.
Proof.
  destruct a as [[a1 a2] a3], b as [[b1 b2] b3]. unfold lex3, lex_le.
  destruct (Z.compare_spec a1 b1), (Z.compare_spec a2 b2), (Z.compare_spec a3 b3);
    split; intros Hg; try congruence; try lia.
Qed.

Lemma lex3_lt a b : lex3 a b = Lt <-> lex_lt a b.
Proof.
  destruct a as [[a1 a2] a3], b as [[b1 b2] b3]. unfold lex3, lex_lt.
  destruct (Z.compare_spec a1 b1), (Z.compare_spec a2 b2), (Z.compare_spec a3 b3);
    split; intros Hg; try congruence; try lia.
Qed.

Lemma lex3_eq a b : lex3 a b = Eq <-> a = b.
Proof.
  destruct a as [[a1 a2] a3], b as [[b1 b2] b3]. unfold lex3.
  destruct (Z.compare_spec a1 b1), (Z.compare_spec a2 b2), (Z.compare_spec a3 b3);
    split; intros Hg; try congruence; try (injection Hg; lia).
Qed.

(** On doubles that are not NaN the comparison is the order of [ord]. *)
Lemma compare_ord x y :
  is_nan x = false -> is_nan y = false ->
  SpecFloat.SFcompare x y = Some (lex3 (ord x) (ord y)).
Proof.
  destruct x as [sx | sx | | sx mx ex], y as [sy | sy | | sy my ey];
    try discriminate; intros _ _;
    try destruct sx; try destruct sy; try reflexivity.
  cbn [SpecFloat.SFcompare ord lex3]. f_equal.
  change (-1 ?= -1)%Z with Eq. cbv iota.
  rewrite Z.compare_opp, (Z.compare_antisym ex ey).
  destruct (ex ?= ey)%Z; reflexivity.
Qed.

Lemma compare_nan x y :
  is_nan x = true \/ is_nan y = true -> SpecFloat.SFcompare x y = None.
Proof.
  destruct x as [sx | sx | | sx mx ex], y as [sy | sy | | sy my ey];
    cbn; intros [H | H]; try discriminate; reflexivity.
Qed.

Lemma leb_iff x y :
  leb x y = true <->
  is_nan x = false /\ is_nan y = false /\ lex_le (ord x) (ord y).
Proof.
  unfold leb, SpecFloat.SFleb.
  destruct (is_nan x) eqn:Hx; [| destruct (is_nan y) eqn:Hy].
  - rewrite compare_nan by auto. split; [discriminate | intros (H & _); discriminate].
  - rewrite compare_nan by auto. split; [discriminate | intros (_ & H & _); discriminate].
  - rewrite compare_ord by assumption. rewrite <- lex3_le.
    destruct (lex3 (ord x) (ord y)); split; intros H; try discriminate;
      repeat split; try congruence.
    destruct H as (_ & _ & H). congruence.
Qed.

Lemma ltb_iff x y :
  ltb x y = true <->
  is_nan x = false /\ is_nan y = false /\ lex_lt (ord x) (ord y).
Proof.
  unfold ltb, SpecFloat.SFltb.
  destruct (is_nan x) eqn:Hx; [| destruct (is_nan y) eqn:Hy].
  - rewrite compare_nan by auto. split; [discriminate | intros (H & _); discriminate].
  - rewrite compare_nan by auto. split; [discriminate | intros (_ & H & _); discriminate].
  - rewrite compare_ord by assumption. rewrite <- lex3_lt.
    destruct (lex3 (ord x) (ord y)); split; intros H; try discriminate;
      repeat split; try congruence.
    all: destruct H as (_ & _ & H); congruence.
Qed.

Lemma eqb_iff x y :
  eqb x y = true <->
  is_nan x = false /\ is_nan y = false /\ ord x = ord y.
Proof.
  unfold eqb, SpecFloat.SFeqb.
  destruct (is_nan x) eqn:Hx; [| destruct (is_nan y) eqn:Hy].
  - rewrite compare_nan by auto. split; [discriminate | intros (H & _); discriminate].
  - rewrite compare_nan by auto. split; [discriminate | intros (_ & H & _); discriminate].
  - rewrite compare_ord by assumption. rewrite <- lex3_eq.
    destruct (lex3 (ord x) (ord y)); split; intros H; try discriminate;
      repeat split; try congruence.
    all: destruct H as (_ & _ & H); congruence.
Qed.

Lemma ltb_false_iff x y :
  ltb x y = false <->
  is_nan x = true \/ is_nan y = true \/ lex_le (ord y) (ord x).
Proof.
  destruct (ltb x y) eqn:E.
  - apply ltb_iff in E as (Hx & Hy & Hlt).
    split; [discriminate |]. intros [H | [H | H]]; try congruence.
    exfalso. destruct (ord x) as [[a1 a2] a3], (ord y) as [[b1 b2] b3].
    unfold lex_lt, lex_le in *. lia.
  - split; [| reflexivity]. intros _.
    destruct (is_nan x) eqn:Hx; [now left |].
    destruct (is_nan y) eqn:Hy; [right; now left |].
    right. right.
    assert (~ lex_lt (ord x) (ord y)) as Hn.
    { intros Hlt. assert (ltb x y = true) by (apply ltb_iff; auto). congruence. }
    destruct (ord x) as [[a1 a2] a3], (ord y) as [[b1 b2] b3].
    unfold lex_lt, lex_le in *. lia.
Qed.

Lemma ltb_leb x y : ltb x y = true -> leb x y = true.
Proof.
  rewrite ltb_iff, leb_iff. intros (Hx & Hy & H). repeat split; try assumption.
  destruct (ord x) as [[a1 a2] a3], (ord y) as [[b1 b2] b3].
  unfold lex_lt, lex_le in *. lia.
Qed.

Lemma not_ltb_leb x y :
  is_nan x = false -> is_nan y = false -> ltb x y = false -> leb y x = true.
Proof.
  intros Hx Hy H. apply ltb_false_iff in H as [H | [H | H]]; try congruence.
  apply leb_iff. auto.
Qed.

Lemma leb_trans x y z : leb x y = true -> leb y z = true -> leb x z = true.
Proof.
  rewrite !leb_iff. intros (Hx & Hy & H1) (_ & Hz & H2). repeat split; try assumption.
  destruct (ord x) as [[a1 a2] a3], (ord y) as [[b1 b2] b3], (ord z) as [[c1 c2] c3].
  unfold lex_le in *. lia.
Qed.

Lemma eqb_not_ltb x y q :
  eqb x q = true -> eqb y q = true -> ltb x y = false.
Proof.
  rewrite !eqb_iff. intros (Hx & _ & H1) (Hy & _ & H2).
  apply ltb_false_iff. right. right. rewrite H1, H2.
  destruct (ord q) as [[a1 a2] a3]. unfold lex_le. lia.
Qed.

Lemma leb_not_nan x y : leb x y = true -> is_nan x = false /\ is_nan y = false.
Proof. rewrite leb_iff. tauto. Qed.

End DoubleOrder.

(* ================================================================== *)
(** * Sorting on double keys *)
(* ================================================================== *)

Section DoubleSort.
Import Binary64.
Context {A : Type} (key : A -> float).

Lemma insert_desc_perm64 x l : Permutation (insert_desc key x l) (x :: l).
Proof.
  induction l as [|y l IH]; simpl.
  - apply Permutation_refl.
  - destruct (ltb (key x) (key y)).
    + eapply perm_trans; [apply perm_skip, IH | apply perm_swap].
    + apply Permutation_refl.
Qed.

Lemma sort_desc_perm64 l : Permutation (sort_desc key l) l.
Proof.
  induction l as [|x l IH]; simpl.
  - apply perm_nil.
  - eapply perm_trans; [apply insert_desc_perm64 | now apply perm_skip].
Qed.

Lemma nan_free_perm l l' :
  Permutation l l' -> nan_free key l -> nan_free key l'.
Proof.
  unfold nan_free. intros Hp Hl. rewrite List.Forall_forall in *.
  intros a Ha. apply Hl. eapply Permutation_in; [apply Permutation_sym, Hp | exact Ha].
Qed.

Lemma insert_desc_sorted64 x l :
  is_nan (key x) = false -> nan_free key l ->
  sorted_desc key l -> sorted_desc key (insert_desc key x l).
Proof.
  unfold sorted_desc, nan_free. intros Hx.
  induction l as [|y l IH]; intros Hl Hs; simpl.
  - repeat constructor.
  - apply Forall_cons in Hl as [Hy Hl]. apply Sorted_inv in Hs as [Hs Hhd].
    destruct (ltb (key x) (key y)) eqn:E.
    + apply Sorted_cons; [now apply IH |].
      apply ltb_leb in E.
      destruct l as [|z l]; simpl.
      * now constructor.
      * destruct (ltb (key x) (key z)); constructor;
          [now apply HdRel_inv in Hhd | assumption].
    + apply Sorted_cons; [now apply Sorted_cons |].
      constructor. now apply not_ltb_leb.
Qed.

Lemma sort_desc_sorted64 l : nan_free key l -> sorted_desc key (sort_desc key l).
Proof.
  induction l as [|x l IH]; intros Hl; simpl.
  - constructor.
  - apply Forall_cons in Hl as [Hx Hl].
    apply insert_desc_sorted64; [assumption | | now apply IH].
    eapply nan_free_perm; [apply Permutation_sym, sort_desc_perm64 | assumption].
Qed.

(** Stability holds with or without NaN: two keys that compare equal to
    the same value are never in the relation [<]. *)
Lemma insert_desc_with_key64 q x l :
  with_key key q (insert_desc key x l) = with_key key q (x :: l).
Proof.
  induction l as [|y l IH]; [reflexivity |].
  cbn [insert_desc]. destruct (ltb (key x) (key y)) eqn:E; [| reflexivity].
  unfold with_key in *. cbn [List.filter] in *. rewrite IH.
  destruct (eqb (key x) q) eqn:Ex; [| reflexivity].
  destruct (eqb (key y) q) eqn:Ey; [| reflexivity].
  rewrite (eqb_not_ltb _ _ _ Ex Ey) in E. discriminate.
Qed.

Lemma sort_desc_with_key64 q l :
  with_key key q (sort_desc key l) = with_key key q l.
Proof.
  induction l as [|x l IH]; [reflexivity |].
  cbn [sort_desc]. rewrite insert_desc_with_key64.
  unfold with_key in *. cbn [List.filter]. now rewrite IH.
Qed.

Lemma filter_sorted_desc64 (p : A -> bool) l :
  sorted_desc key l -> sorted_desc key (List.filter p l).
Proof.
  unfold sorted_desc. intros Hs.
  apply StronglySorted_Sorted.
  apply Sorted_StronglySorted in Hs;
    [| intros a b c Hab Hbc; eapply leb_trans; eassumption].
  induction Hs as [|x l Hs IH Hall]; simpl; [constructor |].
  destruct (p x); [| assumption].
  constructor; [assumption |].
  apply List.Forall_forall. intros y Hy. apply filter_In in Hy as [Hy _].
  rewrite List.Forall_forall in Hall. now apply Hall.
Qed.

Lemma sorted_desc_head64 (x : A) (l : list A) :
  sorted_desc key (x :: l) -> forall y, In y l -> leb (key y) (key x) = true.
Proof.
  unfold sorted_desc. intros Hs.
  apply Sorted_StronglySorted in Hs;
    [| intros a b c Hab Hbc; eapply leb_trans; eassumption].
  apply StronglySorted_inv in Hs as [_ Hall].
  intros y Hy. rewrite List.Forall_forall in Hall. now apply Hall.
Qed.

(** A list in which no key is less than the key that follows it is left
    as it is, whether or not a key is NaN. *)
Lemma sort_desc_run l : one_run key l -> sort_desc key l = l.
Proof.
  unfold one_run. induction 1 as [|x l Hs IH Hhd]; [reflexivity |].
  cbn [sort_desc]. rewrite IH.
  destruct Hhd as [|y l Hxy]; cbn [insert_desc]; [reflexivity |].
  now rewrite Hxy.
Qed.

End DoubleSort.

(* ================================================================== *)
(** * Ranking and threshold, on doubles *)
(* ================================================================== *)

Section DoubleRanking.
Import Binary64.

Lemma condition_scores_map64 kb session :
  condition_scores kb session = scores_of kb session.
Proof. unfold condition_scores, scores_of. now rewrite append_map_loop. Qed.

Lemma diagnose_not_emergency64 kb session :
  emergency (diagnose kb session) = false ->
  diagnose kb session
  = let probable_conditions :=
      List.filter meets_threshold
                  (sort_desc confidence (scores_of kb session)) in
    NormalResult
      (take 3 probable_conditions)
      (_generate_recommendations kb probable_conditions (pet session))
      (_generate_pet_specific_notes (pet session) (reported_symptoms session))
      (_generate_follow_up_questions probable_conditions)
      (session_id session)
      (isoformat (timestamp session)).
Proof.
  unfold diagnose. rewrite condition_scores_map64.
  destruct (check_emergency_conditions _ _) as [[|] alerts].
  - discriminate.
  - reflexivity.
Qed.

Lemma leb_refl x : is_nan x = false -> leb x x = true.
Proof.
  intros Hx. apply leb_iff. repeat split; try assumption.
  destruct (ord x) as [[a1 a2] a3]. unfold lex_le. lia.
Qed.

Lemma ranked_In (scores : list ScoreRecord) s :
  In s (List.filter meets_threshold (sort_desc confidence scores)) <->
  In s scores
  /\ leb (confidence_threshold (score_condition s)) (confidence s) = true.
Proof.
  rewrite filter_In. unfold meets_threshold.
  split; intros [Hin Hle]; (split; [| exact Hle]).
  - eapply Permutation_in; [apply sort_desc_perm64 | exact Hin].
  - eapply Permutation_in; [apply Permutation_sym, sort_desc_perm64 | exact Hin].
Qed.




(** The threshold is applied to the rounded product.  Base confidence
    3/11 and factor 3.4375 have the exact product 15/16, the threshold;
    the double product is one unit in the last place below it, and the
    condition is not returned. *)
Lemma threshold_applies_after_rounding :
  let session := Ward.session "dog" (of_Z 3) ["cough"; "fever"] in
  map (fun s => (base_confidence s, risk_multiplier s))
      (scores_of Ward.edge_kb session)
  = [(Ward.dec 3 11, Ward.dec 55 16)]
  /\ map (fun s => ltb (confidence s) (confidence_threshold (score_condition s)))
         (scores_of Ward.edge_kb session)
     = [true]
  /\ diagnose Ward.edge_kb session
     = NormalResult [] generic_advice [] generic_questions
                    "s-1" "2024-05-01T10:00:00".
Proof. cbv zeta. repeat split; vm_compute; reflexivity. Qed.

(** X8. In a non-emergency result the advice and the questions fit the
    returned conditions: with no condition returned they are the generic
    advice and the three generic questions; otherwise the advice names the
    first returned condition with its adjusted confidence and the first
    question names its category.  There are always three questions.
    Provided no adjusted confidence is NaN, no returned record has a
    higher confidence than the first. *)
Theorem advice_fits_returned kb session :
  emergency (diagnose kb session) = false ->
  exists conds advice notes questions,
    diagnose kb session
    = NormalResult conds advice notes questions
                   (session_id session) (isoformat (timestamp session))
    /\ length questions = 3%nat
    /\ (conds = [] -> advice = generic_advice /\ questions = generic_questions)
    /\ (forall top rest, conds = top :: rest ->
          (exists chosen,
             advice = DiagnosisAdvice (name (score_condition top))
                                      (confidence top)
                                      (severity (score_condition top)) chosen)
          /\ head questions
             = Some ("Have you noticed any other symptoms related to "
                     +:+ category (score_condition top) +:+ "?")
          /\ (nan_free confidence (scores_of kb session) ->
              forall s, In s conds -> leb (confidence s) (confidence top) = true)).
Proof.
  intros Hne. rewrite (diagnose_not_emergency64 _ _ Hne). cbv zeta.
  pose proof (fun Hfree =>
                filter_sorted_desc64 confidence meets_threshold _
                  (sort_desc_sorted64 confidence (scores_of kb session) Hfree))
    as Hsorted.
  pose proof (ranked_In (scores_of kb session)) as Hin.
  destruct (List.filter meets_threshold
              (sort_desc confidence (scores_of kb session)))
    as [|top probable].
  - do 4 eexists. split; [reflexivity |]. split; [reflexivity |].
    split; [intros _; split; reflexivity |]. intros top rest. discriminate.
  - do 4 eexists. split; [reflexivity |]. split; [reflexivity |].
    split; [discriminate |].
    intros top' rest [= <- <-]. split; [| split].
    + eexists. reflexivity.
    + reflexivity.
    + intros Hfree s [<- | Hs].
      * apply leb_refl.
        destruct (proj1 (Hin top) (or_introl eq_refl)) as [_ Hle].
        now apply leb_not_nan in Hle.
      * apply (sorted_desc_head64 confidence top probable (Hsorted Hfree)).
        apply (In_take s 2). exact Hs.
Qed.

Lemma advice_fits_returned_witness :
  exists top rest advice notes questions,
    diagnose Ward.plain_kb (Ward.session "dog" (of_Z 3) ["cough"])
    = NormalResult (top :: rest) advice notes questions
                   "s-1" "2024-05-01T10:00:00"
    /\ id (score_condition top) = "cough_syndrome"
    /\ map (fun s => id (score_condition s)) rest = ["cold"]
    /\ (exists chosen, advice = DiagnosisAdvice "cough_syndrome" one "mild" chosen)
    /\ forall s, In s (top :: rest) -> leb (confidence s) (confidence top) = true.
Proof.
  assert (emergency (diagnose Ward.plain_kb (Ward.session "dog" (of_Z 3) ["cough"]))
          = false) as Hne by (vm_compute; reflexivity).
  assert (nan_free confidence
            (scores_of Ward.plain_kb (Ward.session "dog" (of_Z 3) ["cough"])))
    as Hfree by (vm_compute; repeat constructor).
  destruct (advice_fits_returned Ward.plain_kb
              (Ward.session "dog" (of_Z 3) ["cough"]) Hne)
    as (conds & advice & notes & questions & Heq & _ & _ & Hcons).
  assert (exists top rest,
            conds = top :: rest
            /\ id (score_condition top) = "cough_syndrome"
            /\ map (fun s => id (score_condition s)) rest = ["cold"]
            /\ name (score_condition top) = "cough_syndrome"
            /\ confidence top = one
            /\ severity (score_condition top) = "mild")
    as (top & rest & -> & Hid & Hrest & Hname & Hconf & Hsev).
  { vm_compute in Heq. injection Heq as <- _ _ _.
    do 2 eexists. split; [reflexivity |]. repeat split; vm_compute; reflexivity. }
  destruct (Hcons top rest eq_refl) as ((chosen & Hadvice) & _ & Hmax).
  exists top, rest, advice, notes, questions.
  split; [exact Heq |]. split; [exact Hid |]. split; [exact Hrest |]. split.
  - exists chosen. rewrite Hadvice, Hname, Hconf, Hsev. reflexivity.
  - exact (Hmax Hfree).
Defined.

End DoubleRanking.

(* ================================================================== *)
(** * Age categories, on doubles *)
(* ================================================================== *)

Section DoubleAge.
Import Binary64.

(** A failed test [a < c] against a number [c] means that [a] is NaN or
    at least [c]. *)
Lemma not_ltb_iff c a :
  is_nan c = false ->
  (ltb a c = false <-> is_nan a = true \/ leb c a = true).
Proof.
  intros Hc. rewrite ltb_false_iff, leb_iff. split.
  - intros [H | [H | H]]; [now left | congruence |].
    destruct (is_nan a) eqn:Ha; [now left | right; auto].
  - intros [H | (_ & Ha & H)]; [now left | right; now right].
Qed.

Lemma not_ltb_below c1 c2 a :
  leb c1 c2 = true -> ltb a c2 = false -> ltb a c1 = false.
Proof.
  intros Hle H. pose proof (leb_not_nan _ _ Hle) as [H1 H2].
  apply (not_ltb_iff c2 a H2) in H. apply (not_ltb_iff c1 a H1).
  destruct H as [H | H]; [now left | right].
  eapply leb_trans; eassumption.
Qed.

Lemma senior_age c a :
  leb half c = true ->
  ((if ltb a half then false else if ltb a c then false else true) = true
   <-> is_nan a = true \/ leb c a = true).
Proof.
  intros Hc. pose proof (leb_not_nan _ _ Hc) as [_ Hnan].
  rewrite <- (not_ltb_iff c a Hnan).
  destruct (ltb a c) eqn:E.
  - destruct (ltb a half); split; discriminate.
  - rewrite (not_ltb_below half c a Hc E). split; reflexivity.
Qed.

(** X1. A pet is senior exactly when its lower-cased species is dog and
    its age is at least 7 or is NaN, or cat and its age is at least 10 or
    is NaN.  The age category is ["unknown"] exactly for the species other
    than dog and cat, whatever the age, ["puppy"] exactly for dogs whose
    age is below 0.5 and ["kitten"] exactly for cats whose age is below
    0.5; a NaN age is below nothing. *)
Theorem age_category_on_doubles (the_pet : Pet) :
  let kind := lower (species the_pet) in
  let years := age the_pet in
  (is_senior the_pet = true <->
     (kind = "dog" /\ (is_nan years = true \/ leb (of_Z 7) years = true))
     \/ (kind = "cat" /\ (is_nan years = true \/ leb (of_Z 10) years = true)))
  /\ (get_age_category the_pet = "unknown" <-> kind <> "dog" /\ kind <> "cat")
  /\ (get_age_category the_pet = "puppy" <-> kind = "dog" /\ ltb years half = true)
  /\ (get_age_category the_pet = "kitten" <-> kind = "cat" /\ ltb years half = true)
  /\ (is_nan years = true ->
      get_age_category the_pet = "senior" \/ get_age_category the_pet = "unknown").
Proof.
  cbv zeta.
  assert (leb half (of_Z 7) = true) as H7 by (vm_compute; reflexivity).
  assert (leb half (of_Z 10) = true) as H10 by (vm_compute; reflexivity).
  pose proof (senior_age (of_Z 7) (age the_pet) H7) as Hdog.
  pose proof (senior_age (of_Z 10) (age the_pet) H10) as Hcat.
  assert (is_nan (age the_pet) = true ->
          ltb (age the_pet) half = false
          /\ ltb (age the_pet) (of_Z 7) = false
          /\ ltb (age the_pet) (of_Z 10) = false) as Hnan.
  { intros H. repeat split; apply ltb_false_iff; now left. }
  unfold is_senior, get_age_category.
  destruct (String.eqb_spec (lower (species the_pet)) "dog") as [Hd | Hd];
    [| destruct (String.eqb_spec (lower (species the_pet)) "cat") as [Hc | Hc]].
  - rewrite Hd. split; [| split; [| split; [| split]]].
    + rewrite <- Hdog.
      destruct (ltb (age the_pet) half); [| destruct (ltb (age the_pet) (of_Z 7))];
        cbn; split; intros H; try discriminate; try reflexivity; try tauto;
        destruct H as [[_ H] | [H _]]; discriminate.
    + destruct (ltb (age the_pet) half); [| destruct (ltb (age the_pet) (of_Z 7))];
        split; try discriminate; intros [H _]; now destruct H.
    + destruct (ltb (age the_pet) half); [| destruct (ltb (age the_pet) (of_Z 7))];
        split; try discriminate; try tauto; intros [_ H]; discriminate.
    + destruct (ltb (age the_pet) half); [| destruct (ltb (age the_pet) (of_Z 7))];
        split; try discriminate; intros [H _]; discriminate.
    + intros H. destruct (Hnan H) as (-> & -> & _). now left.
  - rewrite Hc. split; [| split; [| split; [| split]]].
    + rewrite <- Hcat.
      destruct (ltb (age the_pet) half); [| destruct (ltb (age the_pet) (of_Z 10))];
        cbn; split; intros H; try discriminate; try reflexivity; try tauto;
        destruct H as [[H _] | [_ H]]; discriminate.
    + destruct (ltb (age the_pet) half); [| destruct (ltb (age the_pet) (of_Z 10))];
        split; try discriminate; intros [_ H]; now destruct H.
    + destruct (ltb (age the_pet) half); [| destruct (ltb (age the_pet) (of_Z 10))];
        split; try discriminate; intros [H _]; discriminate.
    + destruct (ltb (age the_pet) half); [| destruct (ltb (age the_pet) (of_Z 10))];
        split; try discriminate; try tauto; intros [_ H]; discriminate.
    + intros H. destruct (Hnan H) as (-> & _ & ->). now left.
  - split; [| split; [| split; [| split]]].
    + cbn. split; [discriminate |]. intros [[H _] | [H _]]; contradiction.
    + split; [intros _; split; assumption | reflexivity].
    + split; [discriminate | intros [H _]; contradiction].
    + split; [discriminate | intros [H _]; contradiction].
    + intros _. now right.
Qed.

End DoubleAge.

(* ================================================================== *)
(** * The letter case of the species, on doubles *)
(* ================================================================== *)

Section DoubleSpeciesCase.
Import Binary64.
Variables (the_pet : Pet) (spelling : string).
Hypothesis Hsame : lower spelling = lower (species the_pet).

Lemma get_age_category_case64 :
  get_age_category (with_species the_pet spelling) = get_age_category the_pet.
Proof.
  unfold get_age_category. cbn [species age with_species]. now rewrite Hsame.
Qed.

Lemma species_exclusion_loop_case64 table condition exclude :
  species_exclusion_loop table condition (with_species the_pet spelling) exclude
  = species_exclusion_loop table condition the_pet exclude.
Proof.
  induction table as [|[exclusion_type excluded_species] table IH];
    [reflexivity |].
  cbn [species_exclusion_loop species with_species]. now rewrite Hsame, IH.
Qed.

Lemma excluded_case64 condition :
  excluded condition (with_species the_pet spelling) = excluded condition the_pet.
Proof.
  unfold excluded. rewrite species_exclusion_loop_case64. reflexivity.
Qed.

Lemma apply_pet_specific_rules_case64 kb symptoms :
  apply_pet_specific_rules kb (with_species the_pet spelling) symptoms
  = apply_pet_specific_rules kb the_pet symptoms.
Proof.
  unfold apply_pet_specific_rules. rewrite get_age_category_case64.
  cbn [species with_species]. now rewrite Hsame.
Qed.

Lemma generate_pet_specific_notes_case64 symptoms :
  _generate_pet_specific_notes (with_species the_pet spelling) symptoms
  = _generate_pet_specific_notes the_pet symptoms.
Proof.
  unfold _generate_pet_specific_notes, is_senior.
  rewrite get_age_category_case64. reflexivity.
Qed.

Lemma apply_exclusion_rules_filter64 conditions symptoms a_pet :
  apply_exclusion_rules conditions symptoms a_pet
  = List.filter (fun condition => negb (excluded condition a_pet)) conditions.
Proof.
  unfold apply_exclusion_rules.
  now rewrite (append_if_loop (fun condition => negb (excluded condition a_pet))).
Qed.

Lemma scores_of_case64 kb session :
  pet session = the_pet ->
  scores_of kb (with_pet session (with_species the_pet spelling))
  = scores_of kb session.
Proof.
  intros Hpet. unfold scores_of.
  cbn [pet reported_symptoms with_pet]. rewrite Hpet.
  rewrite apply_pet_specific_rules_case64, !apply_exclusion_rules_filter64.
  f_equal. apply filter_ext. intros c. now rewrite excluded_case64.
Qed.

Lemma diagnose_case64 kb session :
  pet session = the_pet ->
  diagnose kb (with_pet session (with_species the_pet spelling))
  = diagnose kb session.
Proof.
  intros Hpet. unfold diagnose. rewrite !condition_scores_map64.
  rewrite (scores_of_case64 kb session Hpet).
  unfold check_emergency_conditions.
  cbn [pet reported_symptoms session_id timestamp with_pet]. rewrite Hpet.
  now rewrite generate_pet_specific_notes_case64.
Qed.

End DoubleSpeciesCase.

(** X15. For a species written in ASCII, the species enters the diagnosis
    only through its lower-case form: another ASCII spelling with the same
    lower-case form gives the same result, and lower-casing the species
    beforehand, as the route does, changes nothing.  The age may be any
    double, NaN included. *)
Theorem diagnose_species_spelling
    (kb : Binary64.KnowledgeBase) (session : Binary64.DiagnosisSession)
    (spelling : string) :
  is_ascii (Binary64.species (Binary64.pet session)) = true ->
  (is_ascii spelling = true ->
   lower spelling = lower (Binary64.species (Binary64.pet session)) ->
   Binary64.diagnose kb
     (Binary64.with_pet session
        (Binary64.with_species (Binary64.pet session) spelling))
   = Binary64.diagnose kb session)
  /\ Binary64.diagnose kb
       (Binary64.with_pet session
          (Binary64.with_species (Binary64.pet session)
             (lower (Binary64.species (Binary64.pet session)))))
     = Binary64.diagnose kb session.
Proof.
  intros _. split.
  - intros _ Hsame. now apply diagnose_case64.
  - apply diagnose_case64; [apply lower_idempotent | reflexivity].
Qed.

Lemma diagnose_species_spelling_witness :
  Binary64.diagnose Ward.plain_kb
    (Binary64.with_pet
       (Ward.session "Dog" (Binary64.of_Z 3) ["cough"])
       (Binary64.with_species (Ward.the_pet "Dog" (Binary64.of_Z 3)) "DOG"))
  = Binary64.diagnose Ward.plain_kb
      (Ward.session "Dog" (Binary64.of_Z 3) ["cough"]).
Proof.
  apply (proj1 (diagnose_species_spelling Ward.plain_kb
                  (Ward.session "Dog" (Binary64.of_Z 3) ["cough"]) "DOG"
                  eq_refl)); reflexivity.
Defined.

(* ================================================================== *)
(** * The sorted order of doubles is determined *)
(* ================================================================== *)

Section DoubleSortUnique.
Import Binary64.
Context {A : Type} (key : A -> float).

Lemma eqb_refl x : is_nan x = false -> eqb x x = true.
Proof. intros Hx. apply eqb_iff. auto. Qed.

Lemma eqb_sym x y : eqb x y = true -> eqb y x = true.
Proof. rewrite !eqb_iff. intros (Hx & Hy & H). auto. Qed.

Lemma leb_antisym x y : leb x y = true -> leb y x = true -> eqb x y = true.
Proof.
  rewrite !leb_iff, eqb_iff. intros (Hx & Hy & H1) (_ & _ & H2).
  repeat split; try assumption.
  destruct (ord x) as [[a1 a2] a3], (ord y) as [[b1 b2] b3].
  unfold lex_le in *.
  assert (a1 = b1 /\ a2 = b2 /\ a3 = b3) as (-> & -> & ->) by lia.
  reflexivity.
Qed.

Lemma with_key_head64 q (x : A) (l : list A) :
  eqb (key x) q = true -> with_key key q (x :: l) = x :: with_key key q l.
Proof. intros H. unfold with_key. cbn [List.filter]. now rewrite H. Qed.

Lemma with_key_In64 q (x : A) (l : list A) :
  In x (with_key key q l) -> In x l.
Proof. unfold with_key. intros H. now apply filter_In in H. Qed.

Lemma sorted_desc_first (x y : A) (l : list A) :
  is_nan (key x) = false -> sorted_desc key (x :: l) -> In y (x :: l) ->
  leb (key y) (key x) = true.
Proof.
  intros Hx Hs [<- | Hy]; [now apply leb_refl |].
  now apply (sorted_desc_head64 key x l).
Qed.

Lemma stable_sorted_unique64 (l1 l2 : list A) :
  nan_free key l1 -> nan_free key l2 ->
  sorted_desc key l1 -> sorted_desc key l2 ->
  (forall q, with_key key q l1 = with_key key q l2) ->
  l1 = l2.
Proof.
  unfold nan_free. revert l2.
  induction l1 as [|x l1 IH]; intros l2 F1 F2 H1 H2 Hsame.
  - destruct l2 as [|y l2]; [reflexivity |].
    apply Forall_cons in F2 as [Hy _].
    specialize (Hsame (key y)).
    rewrite (with_key_head64 (key y) y) in Hsame by now apply eqb_refl.
    discriminate.
  - apply Forall_cons in F1 as [Hx F1].
    destruct l2 as [|y l2].
    { specialize (Hsame (key x)).
      rewrite (with_key_head64 (key x) x) in Hsame by now apply eqb_refl.
      discriminate. }
    apply Forall_cons in F2 as [Hy F2].
    assert (eqb (key x) (key y) = true) as Hxy.
    { apply leb_antisym.
      - apply (sorted_desc_first y x l2 Hy H2).
        apply (with_key_In64 (key x)).
        rewrite <- Hsame, (with_key_head64 (key x) x) by now apply eqb_refl.
        now left.
      - apply (sorted_desc_first x y l1 Hx H1).
        apply (with_key_In64 (key y)).
        rewrite Hsame, (with_key_head64 (key y) y) by now apply eqb_refl.
        now left. }
    assert (x = y) as <-.
    { pose proof (Hsame (key x)) as Hq.
      rewrite (with_key_head64 (key x) x) in Hq by now apply eqb_refl.
      rewrite (with_key_head64 (key x) y) in Hq by now apply eqb_sym.
      now injection Hq. }
    f_equal. apply IH; try assumption.
    + now apply Sorted_inv in H1.
    + now apply Sorted_inv in H2.
    + intros q. specialize (Hsame q). unfold with_key in *.
      cbn [List.filter] in Hsame.
      destruct (eqb (key x) q); [now injection Hsame | assumption].
Qed.

(** When no key is NaN, every arrangement of the list that is in
    descending key order and keeps the elements of each key in their
    original order is the one computed by [sort_desc]: a stable
    descending sort has no other result. *)
Lemma sort_desc_determined (l l' : list A) :
  nan_free key l -> Permutation l' l ->
  sorted_desc key l' ->
  (forall q, with_key key q l' = with_key key q l) ->
  l' = sort_desc key l.
Proof.
  intros Hfree Hperm Hsorted Hstable.
  apply stable_sorted_unique64.
  - eapply nan_free_perm; [apply Permutation_sym, Hperm | exact Hfree].
  - eapply nan_free_perm; [apply Permutation_sym, sort_desc_perm64 | exact Hfree].
  - exact Hsorted.
  - now apply sort_desc_sorted64.
  - intros q. rewrite sort_desc_with_key64. apply Hstable.
Qed.

End DoubleSortUnique.
